(** * floresta_web: the page script [main.js] as a state machine

    The script drives an external chain object ([FlorestaChain], compiled
    to WebAssembly) from a REST block source and mirrors a few of its
    properties into the page.  This development embeds the script's
    functions ([update_tip], [sync_loop], [update_ui],
    [add_address_to_wallet], [add_random_address_to_wallet], the interval
    callback) and proves properties of them.

    Conventions of the embedding.
    - The chain object is an interface ([FlorestaChain]); its state is
      threaded explicitly through every function.
    - A function that may throw returns the page it leaves behind together
      with a [completion].
    - [effects] is a chronological log of the calls the script makes to
      its surroundings (fetch, console, chain object, DOM writes, alert);
      it is what the theorems observe.
    - [await] points are explicit: the sequential functions take the
      answers of the block source as a function of the height; the event
      loop ([handle]) receives them as events. *)

From Stdlib Require Import QArith.
From Stdlib Require Import DecimalString Ascii String.
From Stdlib Require DecimalNat.
From stdpp Require Import base list strings.

Local Open Scope string_scope.
Local Open Scope nat_scope.
Local Set Warnings "-register-all".

(** ** Values produced by [res.json()] *)

(** A parsed JSON document.  Numbers are the rationals a double can hold;
    an object is the list of its own properties. *)
Inductive json : Type :=
| JNull
| JBool (b : bool)
| JNum (q : Q)
| JStr (s : string)
| JArr (items : list json)
| JObj (fields : list (string * json)).

(** [assoc k fields]: the value of own property [k]. *)
Fixpoint assoc (k : string) (fields : list (string * json)) : option json :=
  match fields with
  | [] => None
  | (k', v) :: rest => if String.eqb k k' then Some v else assoc k rest
  end.

(** [v.k] for a value [v] that is not [null]: [None] is [undefined].
    Only the keys [data] and [block] are read by the script, and no
    primitive wrapper or array carries them. *)
Definition get_prop (v : json) (k : string) : option json :=
  match v with
  | JObj fields => assoc k fields
  | _ => None
  end.

(** JavaScript truthiness of a parsed value. *)
Definition truthy (v : json) : bool :=
  match v with
  | JNull => false
  | JBool b => b
  | JNum q => negb (Z.eqb (Qnum q) 0)
  | JStr s => negb (String.eqb s "")
  | JArr _ => true
  | JObj _ => true
  end.

(** Truthiness of the result of a property read ([undefined] is falsy). *)
Definition truthy_prop (v : option json) : bool :=
  match v with
  | None => false
  | Some j => truthy j
  end.

(** ** The chain object *)

(** The interface of the class imported from [./pkg/example_libfloresta.js].
    A method that throws is [None] and leaves the object as it was.  The
    properties that are only interpolated into the page are taken as the
    text they are shown as. *)
Class FlorestaChain (Chain : Type) : Type := {
  new_chain : Chain;
  height : Chain -> nat;
  tip : Chain -> string;
  network : Chain -> string;
  ibd : Chain -> bool;
  difficulty : Chain -> string;
  target : Chain -> string;
  our_txs : Chain -> string;
  accept_block : string -> Chain -> option Chain;
  toggle_ibd : Chain -> Chain;
  add_address : string -> Chain -> option Chain;
  get_random_address : Chain -> string * Chain;
}.

(** ** Errors, completions, answers of the block source *)

Inductive error : Type :=
| TransportError
| ValidationError
| InputError
| TypeError.

Inductive completion : Type :=
| Normal
| Throw (e : error).

(** What [await fetch(..)] followed by [await res.json()] can give:
    the fetch promise rejects, or a response arrives whose body either
    parses ([Some]) or does not ([None]). *)
Inductive fetch_result : Type :=
| FetchRejected
| FetchResponse (body : option json).

(** One round of lines 59-70 of [update_tip], as the block source client
    of the design. *)
Inductive block_result : Type :=
| BlockAbsent
| BlockPresent (data : json)
| FetchThrows (e : error).

(** ** The page *)

(** What [update_ui] writes into the [height] paragraph. *)
Record snapshot : Type := {
  shown_tip : string;
  shown_height : nat;
  shown_network : string;
  shown_ibd : bool;
  shown_difficulty : string;
  shown_target : string;
}.

Inductive effect : Type :=
| EvLoaded (h : nat)
| EvFetch (url : string)
| EvConsoleLog (blk : option json) (h : nat)
| EvAcceptBlock (payload : string) (accepted : bool)
| EvToggleIbd
| EvAddAddress (addr : string)
| EvGetRandomAddress
| EvAlert (msg : string)
| EvRender (snap : snapshot) (txs : string).

(** The global state of the script and the DOM nodes it touches.
    [last_tip] is [None] while it still holds the number [0] it is
    initialised with (a tip is a string, so [===] against it fails). *)
Record page (Chain : Type) : Type := {
  florestaChain : Chain;
  last_tip : option string;
  height_html : option snapshot;
  our_txs_html : option string;
  wallet_value : string;
  start_disabled : bool;
  effects : list effect;
}.

Arguments florestaChain {Chain} _.
Arguments last_tip {Chain} _.
Arguments height_html {Chain} _.
Arguments our_txs_html {Chain} _.
Arguments wallet_value {Chain} _.
Arguments start_disabled {Chain} _.
Arguments effects {Chain} _.

(** [height] interpolated into the URL template. *)
Definition block_url (h : nat) : string :=
  "http://localhost:8080/block/" ++ NilZero.string_of_uint (Nat.to_uint h).

(** [body.data] read and tested, after [res.json()] has settled. *)
Definition read_block (body : option json) : block_result :=
  match body with
  | None => FetchThrows TransportError
  | Some JNull => FetchThrows TypeError
  | Some block =>
      match get_prop block "data" with
      | Some data => if truthy data then BlockPresent data else BlockAbsent
      | None => BlockAbsent
      end
  end.

Definition fetch_block (r : fetch_result) : block_result :=
  match r with
  | FetchRejected => FetchThrows TransportError
  | FetchResponse body => read_block body
  end.

Section Script.

Context {Chain : Type} `{FlorestaChain Chain}.

(** [JSON.stringify] of the platform. *)
Variable JSON_stringify : json -> string.

Abbreviation page := (page Chain).

Definition emit (e : effect) (p : page) : page :=
  {| florestaChain := florestaChain p;
     last_tip := last_tip p;
     height_html := height_html p;
     our_txs_html := our_txs_html p;
     wallet_value := wallet_value p;
     start_disabled := start_disabled p;
     effects := effects p ++ [e] |}.

Definition set_chain (c : Chain) (p : page) : page :=
  {| florestaChain := c;
     last_tip := last_tip p;
     height_html := height_html p;
     our_txs_html := our_txs_html p;
     wallet_value := wallet_value p;
     start_disabled := start_disabled p;
     effects := effects p |}.

Definition set_wallet_value (v : string) (p : page) : page :=
  {| florestaChain := florestaChain p;
     last_tip := last_tip p;
     height_html := height_html p;
     our_txs_html := our_txs_html p;
     wallet_value := v;
     start_disabled := start_disabled p;
     effects := effects p |}.

Definition set_start_disabled (b : bool) (p : page) : page :=
  {| florestaChain := florestaChain p;
     last_tip := last_tip p;
     height_html := height_html p;
     our_txs_html := our_txs_html p;
     wallet_value := wallet_value p;
     start_disabled := b;
     effects := effects p |}.

(** *** [update_ui] *)

Definition snapshot_of (c : Chain) : snapshot :=
  {| shown_tip := tip c;
     shown_height := height c;
     shown_network := network c;
     shown_ibd := ibd c;
     shown_difficulty := difficulty c;
     shown_target := target c |}.

(** [florestaChain.tip === last_tip] *)
Definition tip_unchanged (p : page) : bool :=
  match last_tip p with
  | None => false
  | Some t => String.eqb (tip (florestaChain p)) t
  end.

Definition update_ui (p : page) : page :=
  if tip_unchanged p then p
  else
    let c := florestaChain p in
    {| florestaChain := c;
       last_tip := Some (tip c);
       height_html := Some (snapshot_of c);
       our_txs_html := Some (our_txs c);
       wallet_value := wallet_value p;
       start_disabled := start_disabled p;
       effects := effects p ++ [EvRender (snapshot_of c) (our_txs c)] |}.

(** *** The wallet buttons *)

Definition add_address_to_wallet (p : page) : page * completion :=
  let arg := wallet_value p in
  let p1 := emit (EvAddAddress arg) p in
  match add_address arg (florestaChain p1) with
  | None => (p1, Throw InputError)
  | Some c => (set_wallet_value "" (set_chain c p1), Normal)
  end.

Definition add_random_address_to_wallet (p : page) : page * completion :=
  let '(wallet, c) := get_random_address (florestaChain p) in
  let p1 := set_chain c (emit EvGetRandomAddress p) in
  let p2 := set_wallet_value wallet p1 in
  let p3 := emit (EvAlert ("Address " ++ wallet ++ " added to wallet")) p2 in
  add_address_to_wallet p3.

(** *** [update_tip] and [sync_loop], run against a block source *)

(** Lines 71-73: log, hand the block to the chain, count. *)
Definition apply_block (h : nat) (data : json) (p : page) : page * completion :=
  let p1 := emit (EvConsoleLog (get_prop data "block") h) p in
  let payload := JSON_stringify data in
  match accept_block payload (florestaChain p1) with
  | Some c => (set_chain c (emit (EvAcceptBlock payload true) p1), Normal)
  | None => (emit (EvAcceptBlock payload false) p1, Throw ValidationError)
  end.

(** The [while (true)] loop with the local counter [h]; [src] answers the
    fetch for each height.  [None] only when [fuel] rounds did not reach a
    [break] or a throw. *)
Fixpoint update_tip_from (fuel : nat) (src : nat -> fetch_result) (h : nat)
    (p : page) : option (page * completion) :=
  match fuel with
  | 0 => None
  | S fuel' =>
      let p1 := emit (EvFetch (block_url h)) p in
      match fetch_block (src h) with
      | FetchThrows e => Some (p1, Throw e)
      | BlockAbsent => Some (p1, Normal)
      | BlockPresent data =>
          match apply_block h data p1 with
          | (p2, Normal) => update_tip_from fuel' src (S h) p2
          | (p2, Throw e) => Some (p2, Throw e)
          end
      end
  end.

Definition update_tip (fuel : nat) (src : nat -> fetch_result) (p : page)
    : option (page * completion) :=
  update_tip_from fuel src (height (florestaChain p) + 1) p.

(** What [sync_loop] does once [await update_tip()] has returned. *)
Definition finish_sync (p : page) : page :=
  let p1 := set_chain (toggle_ibd (florestaChain p)) (emit EvToggleIbd p) in
  set_start_disabled true (update_ui p1).

Definition sync_loop (fuel : nat) (src : nat -> fetch_result) (p : page)
    : option (page * completion) :=
  match update_tip fuel src p with
  | None => None
  | Some (p1, Throw e) => Some (p1, Throw e)
  | Some (p1, Normal) => Some (finish_sync p1, Normal)
  end.

(** *** The event loop

    Every handler of the page runs to its next [await] without
    interruption.  An invocation of [update_tip] that is waiting is a
    [task]; the promises it waits on are settled by events.  The
    continuation of [sync_loop] after [await update_tip()] runs in the
    same turn as the [break] that ends the loop. *)

Inductive caller : Type :=
| BySyncLoop
| ByTimer.

Inductive pc : Type :=
| AwaitFetch (h : nat)
| AwaitJson (h : nat) (body : option json)
| Finished
| Failed (e : error).

Record task : Type := {
  started_by : caller;
  at_pc : pc;
}.

Record world : Type := {
  the_page : page;
  tasks : list task;
}.

Inductive event : Type :=
| ClickStart
| ClickAddWallet
| ClickRandomWallet
| TypeWallet (s : string)
| Tick
| FetchSettled (tid : nat) (r : fetch_result)
| JsonSettled (tid : nat).

Definition with_page (p : page) (w : world) : world :=
  {| the_page := p; tasks := tasks w |}.

Definition move_task (tid : nat) (t : task) (to : pc) (p : page) (w : world)
    : world :=
  {| the_page := p;
     tasks := <[tid := {| started_by := started_by t; at_pc := to |}]> (tasks w) |}.

(** A call of [update_tip()]: runs up to the first [await fetch(..)]. *)
Definition spawn_update_tip (who : caller) (w : world) : world :=
  let h := height (florestaChain (the_page w)) + 1 in
  {| the_page := emit (EvFetch (block_url h)) (the_page w);
     tasks := tasks w ++ [{| started_by := who; at_pc := AwaitFetch h |}] |}.

(** The fetch promise of a waiting task settles. *)
Definition resume_fetch (tid : nat) (t : task) (h : nat) (r : fetch_result)
    (w : world) : world :=
  match r with
  | FetchRejected => move_task tid t (Failed TransportError) (the_page w) w
  | FetchResponse body => move_task tid t (AwaitJson h body) (the_page w) w
  end.

(** The [res.json()] promise settles: the rest of the loop body, and the
    next round up to its [await]. *)
Definition resume_json (tid : nat) (t : task) (h : nat) (body : option json)
    (w : world) : world :=
  match read_block body with
  | FetchThrows e => move_task tid t (Failed e) (the_page w) w
  | BlockAbsent =>
      let p := match started_by t with
               | BySyncLoop => finish_sync (the_page w)
               | ByTimer => the_page w
               end in
      move_task tid t Finished p w
  | BlockPresent data =>
      match apply_block h data (the_page w) with
      | (p2, Normal) =>
          move_task tid t (AwaitFetch (S h)) (emit (EvFetch (block_url (S h))) p2) w
      | (p2, Throw e) => move_task tid t (Failed e) p2 w
      end
  end.

(** The callback given to [setInterval]. *)
Definition interval_callback (w : world) : world :=
  let w1 := with_page (update_ui (the_page w)) w in
  if ibd (florestaChain (the_page w1)) then w1
  else spawn_update_tip ByTimer w1.

Definition handle (ev : event) (w : world) : world :=
  match ev with
  | ClickStart =>
      if start_disabled (the_page w) then w else spawn_update_tip BySyncLoop w
  | ClickAddWallet => with_page (fst (add_address_to_wallet (the_page w))) w
  | ClickRandomWallet =>
      with_page (fst (add_random_address_to_wallet (the_page w))) w
  | TypeWallet s => with_page (set_wallet_value s (the_page w)) w
  | Tick => interval_callback w
  | FetchSettled tid r =>
      match tasks w !! tid with
      | Some t =>
          match at_pc t with
          | AwaitFetch h => resume_fetch tid t h r w
          | _ => w
          end
      | None => w
      end
  | JsonSettled tid =>
      match tasks w !! tid with
      | Some t =>
          match at_pc t with
          | AwaitJson h body => resume_json tid t h body w
          | _ => w
          end
      | None => w
      end
  end.

Fixpoint play (evs : list event) (w : world) : world :=
  match evs with
  | [] => w
  | ev :: rest => play rest (handle ev w)
  end.

(** The promises of task [tid] settled one round after the other by the
    block source [src], with nothing in between. *)
Fixpoint settle_rounds (fuel : nat) (src : nat -> fetch_result) (tid : nat)
    (w : world) : world :=
  match fuel with
  | 0 => w
  | S fuel' =>
      match tasks w !! tid with
      | Some t =>
          match at_pc t with
          | AwaitFetch h =>
              settle_rounds fuel' src tid
                (handle (JsonSettled tid) (handle (FetchSettled tid (src h)) w))
          | _ => w
          end
      | None => w
      end
  end.

(** The [run] function, from the page as loaded: a fresh chain, a first
    render, the start button enabled. *)
Definition run : world :=
  let p0 := {| florestaChain := new_chain;
               last_tip := None;
               height_html := None;
               our_txs_html := None;
               wallet_value := "";
               start_disabled := false;
               effects := [] |} in
  let p1 := emit (EvLoaded (height new_chain)) p0 in
  {| the_page := set_start_disabled false (update_ui p1); tasks := [] |}.

(** *** Observations on the log *)

Definition is_toggle (e : effect) : bool :=
  match e with EvToggleIbd => true | _ => false end.

Definition is_render (e : effect) : bool :=
  match e with EvRender _ _ => true | _ => false end.

Fixpoint count_where (f : effect -> bool) (l : list effect) : nat :=
  match l with
  | [] => 0
  | e :: rest => (if f e then 1 else 0) + count_where f rest
  end.

Definition toggle_count (l : list effect) : nat := count_where is_toggle l.

Definition render_count (l : list effect) : nat := count_where is_render l.

(** The blocks the chain took, in the order it took them. *)
Fixpoint accepted_payloads (l : list effect) : list string :=
  match l with
  | [] => []
  | EvAcceptBlock s true :: rest => s :: accepted_payloads rest
  | _ :: rest => accepted_payloads rest
  end.

(** The blocks the chain refused. *)
Fixpoint rejected_payloads (l : list effect) : list string :=
  match l with
  | [] => []
  | EvAcceptBlock s false :: rest => s :: rejected_payloads rest
  | _ :: rest => rejected_payloads rest
  end.

Fixpoint fetched_urls (l : list effect) : list string :=
  match l with
  | [] => []
  | EvFetch u :: rest => u :: fetched_urls rest
  | _ :: rest => fetched_urls rest
  end.

Fixpoint forwarded_addresses (l : list effect) : list string :=
  match l with
  | [] => []
  | EvAddAddress a :: rest => a :: forwarded_addresses rest
  | _ :: rest => forwarded_addresses rest
  end.

(** *** Vocabulary of the statements *)

(** [accept_block] on a run of blocks, each on the chain the one before
    it left. *)
Fixpoint accept_all (payloads : list string) (c : Chain) : option Chain :=
  match payloads with
  | [] => Some c
  | s :: rest =>
      match accept_block s c with
      | Some c' => accept_all rest c'
      | None => None
      end
  end.

(** What one round of the loop logs for a block that is taken. *)
Definition round (data_at : nat -> json) (h : nat) : list effect :=
  [EvFetch (block_url h);
   EvConsoleLog (get_prop (data_at h) "block") h;
   EvAcceptBlock (JSON_stringify (data_at h)) true].

(** The log of [k] such rounds from height [h0] on. *)
Fixpoint rounds (data_at : nat -> json) (h0 k : nat) : list effect :=
  match k with
  | 0 => []
  | S k' => round data_at h0 ++ rounds data_at (S h0) k'
  end.

(** A page with more entries at the end of its log. *)
Definition emit_all (l : list effect) (p : page) : page :=
  {| florestaChain := florestaChain p;
     last_tip := last_tip p;
     height_html := height_html p;
     our_txs_html := our_txs_html p;
     wallet_value := wallet_value p;
     start_disabled := start_disabled p;
     effects := effects p ++ l |}.

Definition settled (t : task) : Prop :=
  match at_pc t with
  | Finished | Failed _ => True
  | _ => False
  end.

Definition is_start (ev : event) : bool :=
  match ev with ClickStart => true | _ => false end.

(** The task at index [n] has left [update_tip] through [break]. *)
Definition finished_at (n : nat) (w : world) : Prop :=
  exists t, tasks w !! n = Some t /\ at_pc t = Finished.

(** Nothing is waiting and the chain is in initial sync. *)
Definition quiet (w : world) : Prop :=
  ibd (florestaChain (the_page w)) = true /\ Forall settled (tasks w).

(** [p'] has the sync flag, the start button and the toggles of [p]. *)
Definition same_controls (p p' : page) : Prop :=
  ibd (florestaChain p') = ibd (florestaChain p) /\
  start_disabled p' = start_disabled p /\
  toggle_count (effects p') = toggle_count (effects p).

(** [p'] moreover shows no fetch and no applied block beyond [p]. *)
Definition same_sync_view (p p' : page) : Prop :=
  same_controls p p' /\
  fetched_urls (effects p') = fetched_urls (effects p) /\
  accepted_payloads (effects p') = accepted_payloads (effects p).

(** The task the start click made is the last one and has not left the
    loop through [break]; nothing has touched the controls since [p0]. *)
Definition running (ts0 : list task) (p0 : page) (w : world) : Prop :=
  exists t,
    tasks w = (ts0 ++ [t])%list /\
    started_by t = BySyncLoop /\
    at_pc t <> Finished /\
    same_controls p0 (the_page w).

(** The event makes a [sync_loop] come back from [await update_tip()]:
    the body promise of a task started by the start button settles on a
    body without usable [data]. *)
Definition completes_sync_loop (ev : event) (w : world) : bool :=
  match ev with
  | JsonSettled tid =>
      match tasks w !! tid with
      | Some {| started_by := BySyncLoop; at_pc := AwaitJson _ body |} =>
          match read_block body with
          | BlockAbsent => true
          | _ => false
          end
      | _ => false
      end
  | _ => false
  end.

(** A run of [sync_loop] that is waiting inside [update_tip]. *)
Definition waits_for_sync (t : task) : bool :=
  match started_by t, at_pc t with
  | BySyncLoop, AwaitFetch _ => true
  | BySyncLoop, AwaitJson _ _ => true
  | _, _ => false
  end.

Fixpoint syncs_in_flight (ts : list task) : nat :=
  match ts with
  | [] => 0
  | t :: rest => (if waits_for_sync t then 1 else 0) + syncs_in_flight rest
  end.

(** The start button is only clicked while no [sync_loop] is waiting. *)
Fixpoint single_flight (evs : list event) (w : world) : Prop :=
  match evs with
  | [] => True
  | ev :: rest =>
      (is_start ev = true -> syncs_in_flight (tasks w) = 0) /\
      single_flight rest (handle ev w)
  end.

(** At most one of: a [sync_loop] waiting, a toggle done; and a toggle
    done leaves the start button disabled. *)
Definition one_shot (w : world) : Prop :=
  syncs_in_flight (tasks w) + toggle_count (effects (the_page w)) <= 1 /\
  (start_disabled (the_page w) = false ->
   toggle_count (effects (the_page w)) = 0).

(** Only [toggle_ibd] changes the sync flag of the chain object. *)
Definition ibd_stable : Prop :=
  (forall s c c', accept_block s c = Some c' -> ibd c' = ibd c) /\
  (forall a c c', add_address a c = Some c' -> ibd c' = ibd c) /\
  (forall c, ibd (snd (get_random_address c)) = ibd c).

(** Every applied block raises the height by one. *)
Definition height_steps : Prop :=
  forall s c c', accept_block s c = Some c' -> height c' = height c + 1.

End Script.

(** ** The loop as the design words it *)

Section Design.

Context {Chain : Type} `{FlorestaChain Chain}.
Variable JSON_stringify : json -> string.

(** The sync controller of the design: [nextHeight = ChainState.height + 1]
    is computed afresh in every round. *)
Fixpoint update_tip_recomputing (fuel : nat) (src : nat -> fetch_result)
    (p : page Chain) : option (page Chain * completion) :=
  match fuel with
  | 0 => None
  | S fuel' =>
      let nextHeight := height (florestaChain p) + 1 in
      let p1 := emit (EvFetch (block_url nextHeight)) p in
      match fetch_block (src nextHeight) with
      | FetchThrows e => Some (p1, Throw e)
      | BlockAbsent => Some (p1, Normal)
      | BlockPresent data =>
          match apply_block JSON_stringify nextHeight data p1 with
          | (p2, Normal) => update_tip_recomputing fuel' src p2
          | (p2, Throw e) => Some (p2, Throw e)
          end
      end
  end.

End Design.

(** The body carries a [data.block] field. *)
Definition has_data_block (body : json) : bool :=
  match get_prop body "data" with
  | Some data =>
      match get_prop data "block" with
      | Some _ => true
      | None => false
      end
  | None => false
  end.

(** A transport failure: the network fails or the body does not parse. *)
Definition transport_failure (r : fetch_result) : Prop :=
  r = FetchRejected \/ r = FetchResponse None.

(** White space removed by [String.prototype.trim], within ASCII. *)
Definition is_space (a : ascii) : bool :=
  let n := nat_of_ascii a in
  orb (Nat.eqb n 32) (andb (Nat.leb 9 n) (Nat.leb n 13)).

Fixpoint trim_start (s : string) : string :=
  match s with
  | EmptyString => EmptyString
  | String a rest => if is_space a then trim_start rest else s
  end.

(** Drops the white space at the end: a suffix is kept from its first
    character on as soon as something visible follows or stands there. *)
Fixpoint trim_end (s : string) : string :=
  match s with
  | EmptyString => EmptyString
  | String a rest =>
      match trim_end rest with
      | EmptyString => if is_space a then EmptyString else String a EmptyString
      | kept => String a kept
      end
  end.

(** The trimming the design asks of [submitUserAddress]. *)
Definition js_trim (s : string) : string := trim_end (trim_start s).

(** ** A chain object to run the script on *)

Module Toy.

(** Modelled from the spec: the chain-state collaborator, which the
    script imports from [./pkg/example_libfloresta.js].  It keeps the
    blocks it accepted, the sync flag and the watched addresses; the
    height grows by one with every accepted block and the tip changes with
    it; a block is accepted when its text announces a [block] field
    first; an address that is empty or holds white space is refused; a
    watched address is kept once. *)
Record chain : Type := {
  blocks : list string;
  in_ibd : bool;
  watched : list string;
}.

Definition decimal (n : nat) : string := NilZero.string_of_uint (Nat.to_uint n).

Definition dquote : string := String (ascii_of_nat 34) EmptyString.

Definition well_formed (payload : string) : bool :=
  String.prefix ("{" ++ dquote ++ "block" ++ dquote ++ ":") payload.

Definition accept (payload : string) (c : chain) : option chain :=
  if well_formed payload
  then Some {| blocks := blocks c ++ [payload];
               in_ibd := in_ibd c;
               watched := watched c |}
  else None.

Definition toggle (c : chain) : chain :=
  {| blocks := blocks c; in_ibd := negb (in_ibd c); watched := watched c |}.

Definition watch (a : string) (c : chain) : chain :=
  {| blocks := blocks c;
     in_ibd := in_ibd c;
     watched := if existsb (String.eqb a) (watched c)
                then watched c else watched c ++ [a] |}.

Definition malformed (a : string) : bool :=
  orb (String.eqb a "") (existsb is_space (list_ascii_of_string a)).

Definition add (a : string) (c : chain) : option chain :=
  if malformed a then None else Some (watch a c).

Definition fresh_address (c : chain) : string * chain :=
  let a := "addr-" ++ decimal (length (watched c)) in (a, watch a c).

#[export] Instance toy_chain : FlorestaChain chain := {|
  new_chain := {| blocks := []; in_ibd := true; watched := [] |};
  height c := length (blocks c);
  tip c := "tip-" ++ decimal (length (blocks c));
  network c := "regtest";
  ibd := in_ibd;
  difficulty c := "1";
  target c := "ffff";
  our_txs c := "";
  accept_block := accept;
  toggle_ibd := toggle;
  add_address := add;
  get_random_address := fresh_address;
|}.

Definition join (sep : string) (parts : list string) : string :=
  match parts with
  | [] => ""
  | x :: rest => fold_left (fun acc y => acc ++ sep ++ y) rest x
  end.

(** [JSON.stringify] on documents whose numbers are integers and whose
    strings need no escape. *)
Fixpoint stringify (j : json) : string :=
  match j with
  | JNull => "null"
  | JBool true => "true"
  | JBool false => "false"
  | JNum q =>
      match Qnum q with
      | Zneg n => "-" ++ decimal (Pos.to_nat n)
      | z => decimal (Z.to_nat z)
      end
  | JStr s => dquote ++ s ++ dquote
  | JArr items => "[" ++ join "," (map stringify items) ++ "]"
  | JObj fields =>
      "{" ++ join "," (map (fun kv => dquote ++ fst kv ++ dquote ++ ":"
                                        ++ stringify (snd kv)) fields) ++ "}"
  end.

(** A bridge that serves [k] blocks: heights [1..k] carry a block,
    everything above answers with an empty object. *)
Definition block_at (h : nat) : json :=
  JObj [("data", JObj [("block", JStr ("b" ++ decimal h))])].

Definition bridge (k : nat) (h : nat) : fetch_result :=
  if andb (Nat.leb 1 h) (Nat.leb h k)
  then FetchResponse (Some (block_at h))
  else FetchResponse (Some (JObj [])).

(** The same bridge with a block at height 3 that lacks its [block]
    field. *)
Definition bridge_bad3 (h : nat) : fetch_result :=
  match h with
  | 1 | 2 => FetchResponse (Some (block_at h))
  | 3 => FetchResponse (Some (JObj [("data", JObj [("bad", JBool true)])]))
  | _ => FetchResponse (Some (JObj []))
  end.

End Toy.


(** ** More vocabulary: the page over its whole life *)

Section Lifetime.

Context {Chain : Type} `{FlorestaChain Chain}.

(** The start clicks among the events. *)
Fixpoint count_starts (evs : list event) : nat :=
  match evs with
  | [] => 0
  | ev :: rest => (if is_start ev then 1 else 0) + count_starts rest
  end.

(** Every payload handed to [accept_block], taken or refused. *)
Fixpoint offered_payloads (l : list effect) : list string :=
  match l with
  | [] => []
  | EvAcceptBlock s _ :: rest => s :: offered_payloads rest
  | _ :: rest => offered_payloads rest
  end.

(** The [height] paragraph shows the tip that [last_tip] holds. *)
Definition display_consistent (p : page Chain) : Prop :=
  match last_tip p with
  | None => True
  | Some t => exists s, height_html p = Some s /\ shown_tip s = t
  end.

(** [p'] has the globals and DOM nodes of [p], and no render or toggle
    beyond it. *)
Definition page_untouched (p p' : page Chain) : Prop :=
  last_tip p' = last_tip p /\
  height_html p' = height_html p /\
  our_txs_html p' = our_txs_html p /\
  wallet_value p' = wallet_value p /\
  start_disabled p' = start_disabled p /\
  render_count (effects p') = render_count (effects p) /\
  toggle_count (effects p') = toggle_count (effects p).

End Lifetime.

(** * Properties *)

Local Open Scope list_scope.

Section Facts.

Context {Chain : Type} `{FlorestaChain Chain}.
Variable JSON_stringify : json -> string.

Implicit Types (p : page Chain) (w : @world Chain) (src : nat -> fetch_result).

(** ** The display *)

Lemma tip_unchanged_update_ui p : tip_unchanged (update_ui p) = true.
Proof.
  unfold update_ui.
  destruct (tip_unchanged p) eqn:E; [exact E|].
  unfold tip_unchanged; simpl. apply String.eqb_refl.
Qed.

Lemma update_ui_idempotent p : update_ui (update_ui p) = update_ui p.
Proof.
  unfold update_ui at 1. now rewrite tip_unchanged_update_ui.
Qed.

Lemma update_ui_chain p : florestaChain (update_ui p) = florestaChain p.
Proof. unfold update_ui. now destruct (tip_unchanged p). Qed.

Lemma update_ui_start_disabled p :
  start_disabled (update_ui p) = start_disabled p.
Proof. unfold update_ui. now destruct (tip_unchanged p). Qed.

Lemma update_ui_wallet_value p : wallet_value (update_ui p) = wallet_value p.
Proof. unfold update_ui. now destruct (tip_unchanged p). Qed.

Lemma update_ui_last_tip p :
  last_tip (update_ui p) = Some (tip (florestaChain p)).
Proof.
  unfold update_ui, tip_unchanged.
  destruct (last_tip p) as [t|] eqn:E; simpl; [|reflexivity].
  destruct (String.eqb_spec (tip (florestaChain p)) t) as [->|_];
    [exact E|reflexivity].
Qed.

Lemma update_ui_effects p :
  effects (update_ui p) =
  effects p ++
    (if tip_unchanged p then []
     else [EvRender (snapshot_of (florestaChain p)) (our_txs (florestaChain p))]).
Proof.
  unfold update_ui. destruct (tip_unchanged p); simpl; [|reflexivity].
  now rewrite app_nil_r.
Qed.

(** ** Counting in the log *)

Lemma count_where_app f (l1 l2 : list effect) :
  count_where f (l1 ++ l2) = count_where f l1 + count_where f l2.
Proof.
  induction l1 as [|e l1 IH]; simpl; [reflexivity|]. rewrite IH. lia.
Qed.

Lemma accepted_payloads_app (l1 l2 : list effect) :
  accepted_payloads (l1 ++ l2) = accepted_payloads l1 ++ accepted_payloads l2.
Proof.
  induction l1 as [|e l1 IH]; simpl; [reflexivity|].
  destruct e as [| | | ? [|] | | | | |]; simpl; now rewrite IH.
Qed.

Lemma rejected_payloads_app (l1 l2 : list effect) :
  rejected_payloads (l1 ++ l2) = rejected_payloads l1 ++ rejected_payloads l2.
Proof.
  induction l1 as [|e l1 IH]; simpl; [reflexivity|].
  destruct e as [| | | ? [|] | | | | |]; simpl; now rewrite IH.
Qed.

Lemma fetched_urls_app (l1 l2 : list effect) :
  fetched_urls (l1 ++ l2) = fetched_urls l1 ++ fetched_urls l2.
Proof.
  induction l1 as [|e l1 IH]; simpl; [reflexivity|].
  destruct e; simpl; now rewrite IH.
Qed.

Lemma forwarded_addresses_app (l1 l2 : list effect) :
  forwarded_addresses (l1 ++ l2) =
  forwarded_addresses l1 ++ forwarded_addresses l2.
Proof.
  induction l1 as [|e l1 IH]; simpl; [reflexivity|].
  destruct e; simpl; now rewrite IH.
Qed.

Lemma toggle_count_update_ui p :
  toggle_count (effects (update_ui p)) = toggle_count (effects p).
Proof.
  rewrite update_ui_effects. unfold toggle_count. rewrite count_where_app.
  destruct (tip_unchanged p); simpl; lia.
Qed.

Lemma fetched_urls_update_ui p :
  fetched_urls (effects (update_ui p)) = fetched_urls (effects p).
Proof.
  rewrite update_ui_effects, fetched_urls_app.
  destruct (tip_unchanged p); simpl; now rewrite app_nil_r.
Qed.

(** ** The loop against its design *)

Lemma update_tip_from_recomputing src :
  height_steps ->
  forall fuel h p,
    h = height (florestaChain p) + 1 ->
    update_tip_from JSON_stringify fuel src h p =
    update_tip_recomputing JSON_stringify fuel src p.
Proof.
  intros Hstep fuel.
  induction fuel as [|fuel IH]; intros h p Hh; simpl; [reflexivity|].
  subst h.
  destruct (fetch_block (src (height (florestaChain p) + 1)));
    try reflexivity.
  unfold apply_block; simpl.
  destruct (accept_block (JSON_stringify data) (florestaChain p)) as [c|] eqn:E;
    [|reflexivity].
  apply IH. simpl. rewrite (Hstep _ _ _ E). lia.
Qed.

(** C6: reading the height once and counting locally gives the same run
    as recomputing [height + 1] in every round, provided every applied
    block raises the height by exactly one. *)
Theorem update_tip_refines_design src fuel p :
  height_steps ->
  update_tip JSON_stringify fuel src p =
  update_tip_recomputing JSON_stringify fuel src p.
Proof.
  intros Hstep. unfold update_tip.
  now apply update_tip_from_recomputing.
Qed.

(** ** Runs of the loop *)

Lemma emit_all_nil p : set_chain (florestaChain p) (emit_all [] p) = p.
Proof.
  destruct p; unfold set_chain, emit_all; simpl. now rewrite app_nil_r.
Qed.

(** [k] rounds that find a block the chain takes bring the loop to
    height [h0 + k], with the chain those blocks built. *)
Lemma update_tip_from_rounds src (data_at : nat -> json) :
  forall k fuel h0 p cK,
    k < fuel ->
    (forall h, h0 <= h < h0 + k ->
               fetch_block (src h) = BlockPresent (data_at h)) ->
    accept_all (map (fun h => JSON_stringify (data_at h)) (seq h0 k))
               (florestaChain p) = Some cK ->
    update_tip_from JSON_stringify fuel src h0 p =
    update_tip_from JSON_stringify (fuel - k) src (h0 + k)
      (set_chain cK (emit_all (rounds JSON_stringify data_at h0 k) p)).
Proof.
  induction k as [|k IH]; intros fuel h0 p cK Hfuel Hsrc Hacc.
  - simpl in Hacc. injection Hacc as <-.
    now rewrite Nat.sub_0_r, Nat.add_0_r, emit_all_nil.
  - destruct fuel as [|fuel]; [lia|].
    simpl in Hacc.
    destruct (accept_block (JSON_stringify (data_at h0)) (florestaChain p))
      as [c1|] eqn:E; [|discriminate].
    cbn [update_tip_from].
    rewrite (Hsrc h0) by lia.
    unfold apply_block; cbn [florestaChain emit]. rewrite E.
    rewrite (IH fuel (S h0) _ cK); [| lia | intros; apply Hsrc; lia | exact Hacc].
    replace (S h0 + k) with (h0 + S k) by lia.
    replace (S fuel - S k) with (fuel - k) by lia.
    f_equal. unfold set_chain, emit_all, emit; cbn.
    f_equal. now rewrite <- !app_assoc.
Qed.

Lemma accepted_payloads_rounds (data_at : nat -> json) k : forall h0,
  accepted_payloads (rounds JSON_stringify data_at h0 k) =
  map (fun h => JSON_stringify (data_at h)) (seq h0 k).
Proof.
  induction k as [|k IH]; intros h0; cbn; [reflexivity|]. now rewrite IH.
Qed.

Lemma rejected_payloads_rounds (data_at : nat -> json) k : forall h0,
  rejected_payloads (rounds JSON_stringify data_at h0 k) = [].
Proof.
  induction k as [|k IH]; intros h0; cbn; [reflexivity|]. now rewrite IH.
Qed.

Lemma fetched_urls_rounds (data_at : nat -> json) k : forall h0,
  fetched_urls (rounds JSON_stringify data_at h0 k) = map block_url (seq h0 k).
Proof.
  induction k as [|k IH]; intros h0; cbn -[block_url]; [reflexivity|].
  now rewrite IH.
Qed.

Lemma toggle_count_rounds (data_at : nat -> json) k : forall h0,
  toggle_count (rounds JSON_stringify data_at h0 k) = 0.
Proof.
  induction k as [|k IH]; intros h0; cbn; [reflexivity|]. apply IH.
Qed.

Lemma render_count_rounds (data_at : nat -> json) k : forall h0,
  render_count (rounds JSON_stringify data_at h0 k) = 0.
Proof.
  induction k as [|k IH]; intros h0; cbn; [reflexivity|]. apply IH.
Qed.

Lemma toggle_count_finish_sync p :
  toggle_count (effects (finish_sync p)) = S (toggle_count (effects p)).
Proof.
  unfold finish_sync; cbn [effects set_start_disabled].
  rewrite toggle_count_update_ui; cbn.
  unfold toggle_count. rewrite count_where_app; cbn. lia.
Qed.

(** C1, as the script has it: with blocks at heights [1..K] that the
    chain takes and none at [K + 1], [sync_loop] from height 0 returns
    (for any fuel above [K]); it has fetched heights [1..K+1] and applied
    the [K] blocks in this order, none refused; it has toggled once,
    called [update_ui] on the toggled chain and disabled the start
    button.  That call of [update_ui] redraws the page exactly when the
    tip of the toggled chain is not the tip [last_tip] held before the
    run: then the log gains one render and both paragraphs show the
    toggled chain; otherwise nothing is rendered and both paragraphs are
    as they were before the run. *)
Theorem sync_loop_applies_all_blocks (K : nat) src (data_at : nat -> json)
    p (cK : Chain) (fuel : nat) :
  height (florestaChain p) = 0 ->
  (forall h, 1 <= h <= K -> fetch_block (src h) = BlockPresent (data_at h)) ->
  fetch_block (src (K + 1)) = BlockAbsent ->
  accept_all (map (fun h => JSON_stringify (data_at h)) (seq 1 K))
             (florestaChain p) = Some cK ->
  K < fuel ->
  exists p1,
    update_tip JSON_stringify fuel src p = Some (p1, Normal) /\
    sync_loop JSON_stringify fuel src p = Some (finish_sync p1, Normal) /\
    florestaChain p1 = cK /\
    accepted_payloads (effects p1) =
      accepted_payloads (effects p) ++
      map (fun h => JSON_stringify (data_at h)) (seq 1 K) /\
    rejected_payloads (effects p1) = rejected_payloads (effects p) /\
    fetched_urls (effects p1) =
      fetched_urls (effects p) ++ map block_url (seq 1 (S K)) /\
    toggle_count (effects (finish_sync p1)) = S (toggle_count (effects p)) /\
    finish_sync p1 =
      set_start_disabled true
        (update_ui (set_chain (toggle_ibd cK) (emit EvToggleIbd p1))) /\
    florestaChain (finish_sync p1) = toggle_ibd cK /\
    last_tip (finish_sync p1) = Some (tip (toggle_ibd cK)) /\
    start_disabled (finish_sync p1) = true /\
    effects (finish_sync p1) =
      effects p1 ++ EvToggleIbd ::
      (if match last_tip p with
          | Some t => String.eqb (tip (toggle_ibd cK)) t
          | None => false
          end
       then []
       else [EvRender (snapshot_of (toggle_ibd cK)) (our_txs (toggle_ibd cK))]) /\
    render_count (effects (finish_sync p1)) =
      render_count (effects p) +
      (if match last_tip p with
          | Some t => String.eqb (tip (toggle_ibd cK)) t
          | None => false
          end
       then 0 else 1) /\
    height_html (finish_sync p1) =
      (if match last_tip p with
          | Some t => String.eqb (tip (toggle_ibd cK)) t
          | None => false
          end
       then height_html p
       else Some (snapshot_of (toggle_ibd cK))) /\
    our_txs_html (finish_sync p1) =
      (if match last_tip p with
          | Some t => String.eqb (tip (toggle_ibd cK)) t
          | None => false
          end
       then our_txs_html p
       else Some (our_txs (toggle_ibd cK))).
Proof.
  intros Hh Hsrc Habs Hacc Hfuel.
  set (pK := set_chain cK (emit_all (rounds JSON_stringify data_at 1 K) p)).
  exists (emit (EvFetch (block_url (K + 1))) pK).
  assert (Hrun : update_tip JSON_stringify fuel src p =
                 Some (emit (EvFetch (block_url (K + 1))) pK, Normal)).
  { unfold update_tip. rewrite Hh. cbn [Nat.add].
    rewrite (update_tip_from_rounds src data_at K fuel 1 p cK);
      [| exact Hfuel | intros; apply Hsrc; lia | exact Hacc].
    fold pK.
    destruct (fuel - K) as [|rest] eqn:Hrest; [lia|].
    cbn [update_tip_from]. replace (1 + K) with (K + 1) by lia.
    now rewrite Habs. }
  split; [exact Hrun|].
  split; [unfold sync_loop; now rewrite Hrun|].
  split; [reflexivity|].
  split.
  { cbn [effects emit pK set_chain emit_all].
    rewrite !accepted_payloads_app, accepted_payloads_rounds; cbn.
    now rewrite app_nil_r. }
  split.
  { cbn [effects emit pK set_chain emit_all].
    rewrite !rejected_payloads_app, rejected_payloads_rounds; cbn.
    now rewrite !app_nil_r. }
  split.
  { rewrite seq_S, map_app. cbn [effects emit pK set_chain emit_all].
    rewrite !fetched_urls_app, fetched_urls_rounds.
    cbn [fetched_urls map app].
    rewrite <- app_assoc. now replace (K + 1) with (1 + K) by lia. }
  split.
  { rewrite toggle_count_finish_sync. f_equal.
    cbn [effects emit pK set_chain emit_all].
    unfold toggle_count. rewrite !count_where_app.
    fold (toggle_count (rounds JSON_stringify data_at 1 K)).
    rewrite toggle_count_rounds. cbn. lia. }
  split; [reflexivity|].
  split.
  { unfold finish_sync. cbn [florestaChain set_start_disabled].
    now rewrite update_ui_chain. }
  split.
  { unfold finish_sync. cbn [last_tip set_start_disabled].
    now rewrite update_ui_last_tip. }
  split; [reflexivity|].
  pose (pT := set_chain (toggle_ibd cK)
                (emit EvToggleIbd (emit (EvFetch (block_url (K + 1))) pK))).
  change (finish_sync (emit (EvFetch (block_url (K + 1))) pK))
    with (set_start_disabled true (update_ui pT)).
  cbn [effects height_html our_txs_html set_start_disabled].
  assert (Hun : tip_unchanged pT =
                match last_tip p with
                | Some t => String.eqb (tip (toggle_ibd cK)) t
                | None => false
                end) by reflexivity.
  destruct (match last_tip p with
            | Some t => String.eqb (tip (toggle_ibd cK)) t
            | None => false
            end);
    unfold update_ui; rewrite Hun;
    cbn [effects height_html our_txs_html florestaChain pT pK
         set_chain emit emit_all].
  - split; [reflexivity|]. split; [|split; reflexivity].
    unfold render_count. rewrite !count_where_app.
    fold (render_count (rounds JSON_stringify data_at 1 K)).
    rewrite render_count_rounds. cbn. lia.
  - split; [now rewrite <- app_assoc|]. split; [|split; reflexivity].
    unfold render_count. rewrite !count_where_app.
    fold (render_count (rounds JSON_stringify data_at 1 K)).
    rewrite render_count_rounds. cbn. lia.
Qed.

(** C2: with blocks at heights 1 and 2 that the chain takes and a block
    at height 3 that it refuses, [sync_loop] from height 0 ends with a
    validation error raised in the round for height 3; blocks 1 and 2 are
    applied and nothing else, the chain is the one block 2 left, at
    height 2, and neither the toggle nor the start button is touched. *)
Theorem sync_loop_halts_on_rejected_block src (d1 d2 d3 : json) p
    (c1 c2 : Chain) (fuel : nat) :
  height (florestaChain p) = 0 ->
  height_steps ->
  fetch_block (src 1) = BlockPresent d1 ->
  fetch_block (src 2) = BlockPresent d2 ->
  fetch_block (src 3) = BlockPresent d3 ->
  accept_block (JSON_stringify d1) (florestaChain p) = Some c1 ->
  accept_block (JSON_stringify d2) c1 = Some c2 ->
  accept_block (JSON_stringify d3) c2 = None ->
  3 <= fuel ->
  exists p',
    sync_loop JSON_stringify fuel src p = Some (p', Throw ValidationError) /\
    accepted_payloads (effects p') =
      accepted_payloads (effects p) ++ [JSON_stringify d1; JSON_stringify d2] /\
    rejected_payloads (effects p') =
      rejected_payloads (effects p) ++ [JSON_stringify d3] /\
    fetched_urls (effects p') =
      fetched_urls (effects p) ++ [block_url 1; block_url 2; block_url 3] /\
    florestaChain p' = c2 /\
    height (florestaChain p') = 2 /\
    toggle_count (effects p') = toggle_count (effects p) /\
    start_disabled p' = start_disabled p.
Proof.
  intros Hh Hstep H1 H2 H3 A1 A2 A3 Hfuel.
  destruct fuel as [|[|[|fuel]]]; try lia.
  eexists. split.
  { unfold sync_loop, update_tip. rewrite Hh.
    cbn [Nat.add update_tip_from]. rewrite H1.
    unfold apply_block at 1; cbn [florestaChain emit]. rewrite A1.
    rewrite H2.
    unfold apply_block at 1; cbn [florestaChain emit set_chain]. rewrite A2.
    rewrite H3.
    unfold apply_block at 1; cbn [florestaChain emit set_chain]. rewrite A3.
    reflexivity. }
  cbn [effects emit florestaChain start_disabled set_chain].
  rewrite !accepted_payloads_app, !rejected_payloads_app, !fetched_urls_app.
  unfold toggle_count; rewrite !count_where_app.
  cbn -[block_url]. rewrite !app_nil_r, <- !app_assoc.
  repeat split; try reflexivity.
  - rewrite (Hstep _ _ _ A2), (Hstep _ _ _ A1), Hh. reflexivity.
  - lia.
Qed.

(** ** The block source client *)

Lemma read_block_not_null (j : json) :
  j <> JNull ->
  read_block (Some j) =
  match get_prop j "data" with
  | Some data => if truthy data then BlockPresent data else BlockAbsent
  | None => BlockAbsent
  end.
Proof. destruct j; simpl; congruence. Qed.

(** C4, as the script has it: for a body that parsed to something other
    than [null], the round ends the loop exactly when [data] is missing
    or falsy, and hands [data] to the chain exactly when [data] is truthy,
    whether or not it carries a [block] field; a [data.block] field is
    enough for the latter.  What is handed over is the text of [data]. *)
Theorem fetch_block_decided_by_data (j : json) :
  j <> JNull ->
  (fetch_block (FetchResponse (Some j)) = BlockAbsent <->
   truthy_prop (get_prop j "data") = false) /\
  (forall data, fetch_block (FetchResponse (Some j)) = BlockPresent data <->
                get_prop j "data" = Some data /\ truthy data = true) /\
  (has_data_block j = true ->
   exists data, fetch_block (FetchResponse (Some j)) = BlockPresent data) /\
  (forall data h p,
     fetch_block (FetchResponse (Some j)) = BlockPresent data ->
     exists ok,
       effects (fst (apply_block JSON_stringify h data p)) =
       effects p ++ [EvConsoleLog (get_prop data "block") h;
                     EvAcceptBlock (JSON_stringify data) ok]).
Proof.
  intros Hj. unfold fetch_block. rewrite (read_block_not_null j Hj).
  split; [|split; [|split]].
  - destruct (get_prop j "data") as [d|]; simpl; [|tauto].
    destruct (truthy d); split; congruence.
  - intros data.
    destruct (get_prop j "data") as [d|]; [destruct (truthy d) eqn:E|].
    + split; [intros [= <-]; tauto | intros [[= ->] _]; reflexivity].
    + split; [discriminate | intros [[= ->] Ht]; congruence].
    + split; [discriminate | intros [? _]; discriminate].
  - unfold has_data_block.
    destruct (get_prop j "data") as [d|]; [|discriminate].
    destruct d as [| | | | |fields]; simpl; try discriminate.
    intros _. now eexists.
  - intros data h p _. unfold apply_block; simpl.
    destruct (accept_block (JSON_stringify data) (florestaChain p));
      simpl; eexists; rewrite <- app_assoc; reflexivity.
Qed.

(** C7: a rejected fetch or a body that does not parse makes the round
    throw a transport error and never reports the end of the chain;
    [update_tip] ends with that error at whatever height it occurs, and
    so does [sync_loop], after any number of applied blocks, without
    toggling and without touching the start button; and a round reports
    the end of the chain only on a body that parsed. *)
Theorem transport_failure_propagates (r : fetch_result) :
  transport_failure r ->
  fetch_block r = FetchThrows TransportError /\
  fetch_block r <> BlockAbsent /\
  (forall fuel src h p,
     src h = r ->
     update_tip_from JSON_stringify (S fuel) src h p =
     Some (emit (EvFetch (block_url h)) p, Throw TransportError)) /\
  (forall K src (data_at : nat -> json) p cK fuel,
     (forall h, height (florestaChain p) + 1 <= h
                < height (florestaChain p) + 1 + K ->
                fetch_block (src h) = BlockPresent (data_at h)) ->
     src (height (florestaChain p) + 1 + K) = r ->
     accept_all (map (fun h => JSON_stringify (data_at h))
                     (seq (height (florestaChain p) + 1) K))
                (florestaChain p) = Some cK ->
     K < fuel ->
     exists p',
       sync_loop JSON_stringify fuel src p = Some (p', Throw TransportError) /\
       florestaChain p' = cK /\
       toggle_count (effects p') = toggle_count (effects p) /\
       start_disabled p' = start_disabled p) /\
  (forall r', fetch_block r' = BlockAbsent ->
              exists j, r' = FetchResponse (Some j)).
Proof.
  intros Hr.
  assert (Hthrow : fetch_block r = FetchThrows TransportError)
    by (destruct Hr as [-> | ->]; reflexivity).
  split; [exact Hthrow|].
  split; [rewrite Hthrow; discriminate|].
  split; [|split].
  - intros fuel src h p Hsrc. simpl. now rewrite Hsrc, Hthrow.
  - intros K src data_at p cK fuel Hpres Hsrc Hacc Hfuel.
    unfold sync_loop, update_tip.
    rewrite (update_tip_from_rounds src data_at K fuel _ p cK Hfuel Hpres Hacc).
    destruct (fuel - K) as [|rest] eqn:Hrest; [lia|].
    cbn [update_tip_from]. rewrite Hsrc, Hthrow.
    eexists. split; [reflexivity|].
    cbn [florestaChain start_disabled effects emit set_chain emit_all].
    repeat split.
    unfold toggle_count. rewrite !count_where_app.
    fold (toggle_count (rounds JSON_stringify data_at
                          (height (florestaChain p) + 1) K)).
    rewrite toggle_count_rounds. cbn. lia.
  - intros [|[j|]]; simpl; try discriminate. intros _. now exists j.
Qed.

(** ** The wallet field *)

(** C5, as the script has it: the text of the field goes to
    [add_address] exactly as it stands, untrimmed; when the call returns
    the field is emptied. *)
Theorem add_address_forwards_raw p :
  forwarded_addresses (effects (fst (add_address_to_wallet p))) =
  forwarded_addresses (effects p) ++ [wallet_value p] /\
  match add_address (wallet_value p) (florestaChain p) with
  | Some c =>
      snd (add_address_to_wallet p) = Normal /\
      florestaChain (fst (add_address_to_wallet p)) = c /\
      wallet_value (fst (add_address_to_wallet p)) = ""
  | None => snd (add_address_to_wallet p) = Throw InputError
  end.
Proof.
  unfold add_address_to_wallet; simpl.
  destruct (add_address (wallet_value p) (florestaChain p)); simpl;
    rewrite forwarded_addresses_app; auto.
Qed.

(** C10: when [add_address] throws, the assignment that empties the field
    is not reached: the field, the chain and the rest of the page stay
    as they were. *)
Theorem failed_add_keeps_field p :
  add_address (wallet_value p) (florestaChain p) = None ->
  snd (add_address_to_wallet p) = Throw InputError /\
  wallet_value (fst (add_address_to_wallet p)) = wallet_value p /\
  fst (add_address_to_wallet p) = emit (EvAddAddress (wallet_value p)) p.
Proof.
  intros Hadd. unfold add_address_to_wallet; simpl. now rewrite Hadd.
Qed.

(** C8, as the script has it: a call whose tip is the one last rendered
    changes nothing; any other call records the tip and writes the
    snapshot and the transaction summary; so of two calls in a row the
    second never writes, and together they write once when the tip was
    new and not at all when it had been rendered before. *)
Theorem update_ui_renders_new_tip_once p :
  (tip_unchanged p = true -> update_ui p = p) /\
  (tip_unchanged p = false ->
   update_ui p =
   {| florestaChain := florestaChain p;
      last_tip := Some (tip (florestaChain p));
      height_html := Some (snapshot_of (florestaChain p));
      our_txs_html := Some (our_txs (florestaChain p));
      wallet_value := wallet_value p;
      start_disabled := start_disabled p;
      effects := effects p ++
                 [EvRender (snapshot_of (florestaChain p))
                           (our_txs (florestaChain p))] |}) /\
  update_ui (update_ui p) = update_ui p /\
  render_count (effects (update_ui (update_ui p))) =
  render_count (effects p) + (if tip_unchanged p then 0 else 1).
Proof.
  split; [|split; [|split]].
  - intros E. unfold update_ui. now rewrite E.
  - intros E. unfold update_ui. now rewrite E.
  - apply update_ui_idempotent.
  - rewrite update_ui_idempotent, update_ui_effects.
    unfold render_count. rewrite count_where_app.
    now destruct (tip_unchanged p).
Qed.

(** ** The event loop *)

Lemma same_controls_refl p : same_controls p p.
Proof. now repeat split. Qed.

Lemma same_controls_trans p1 p2 p3 :
  same_controls p1 p2 -> same_controls p2 p3 -> same_controls p1 p3.
Proof. unfold same_controls. intuition congruence. Qed.

Lemma same_sync_view_refl p : same_sync_view p p.
Proof. now repeat split. Qed.

Lemma same_sync_view_trans p1 p2 p3 :
  same_sync_view p1 p2 -> same_sync_view p2 p3 -> same_sync_view p1 p3.
Proof. unfold same_sync_view, same_controls. intuition congruence. Qed.

Lemma same_sync_view_update_ui p : same_sync_view p (update_ui p).
Proof.
  repeat split.
  - now rewrite update_ui_chain.
  - apply update_ui_start_disabled.
  - apply toggle_count_update_ui.
  - apply fetched_urls_update_ui.
  - rewrite update_ui_effects, accepted_payloads_app.
    destruct (tip_unchanged p); simpl; now rewrite app_nil_r.
Qed.

Lemma same_sync_view_add_address p :
  ibd_stable -> same_sync_view p (fst (add_address_to_wallet p)).
Proof.
  intros (_ & Hadd & _). unfold add_address_to_wallet; cbn [florestaChain emit].
  destruct (add_address (wallet_value p) (florestaChain p)) as [c|] eqn:E;
    repeat split; cbn;
    unfold toggle_count;
    rewrite ?count_where_app, ?fetched_urls_app, ?accepted_payloads_app;
    cbn; rewrite ?app_nil_r; eauto; lia.
Qed.

Lemma same_sync_view_add_random p :
  ibd_stable -> same_sync_view p (fst (add_random_address_to_wallet p)).
Proof.
  intros Hst. unfold add_random_address_to_wallet.
  pose proof Hst as (_ & _ & Hrand). specialize (Hrand (florestaChain p)).
  destruct (get_random_address (florestaChain p)) as [a c]. cbn [snd] in Hrand.
  eapply same_sync_view_trans; [|now apply same_sync_view_add_address].
  repeat split; cbn;
    unfold toggle_count;
    rewrite ?count_where_app, ?fetched_urls_app, ?accepted_payloads_app;
    cbn; rewrite ?app_nil_r; auto; lia.
Qed.

(** A tick while the chain is in initial sync renders and does nothing
    else. *)
Lemma tick_in_ibd w :
  ibd (florestaChain (the_page w)) = true ->
  handle JSON_stringify Tick w = with_page (update_ui (the_page w)) w.
Proof.
  intros Hibd. cbn [handle]. unfold interval_callback.
  cbn [the_page with_page]. now rewrite update_ui_chain, Hibd.
Qed.

(** The events that are neither the start click nor a settled promise
    leave the tasks and the sync view alone while the chain is in initial
    sync. *)
Lemma handle_bystander ev w :
  ibd_stable ->
  ibd (florestaChain (the_page w)) = true ->
  match ev with
  | ClickStart | FetchSettled _ _ | JsonSettled _ => True
  | _ =>
      tasks (handle JSON_stringify ev w) = tasks w /\
      same_sync_view (the_page w) (the_page (handle JSON_stringify ev w))
  end.
Proof.
  intros Hst Hibd. destruct ev; try exact I.
  - split; [reflexivity|]. now apply same_sync_view_add_address.
  - split; [reflexivity|]. now apply same_sync_view_add_random.
  - split; [reflexivity|]. now repeat split.
  - rewrite (tick_in_ibd w Hibd).
    split; [reflexivity|]. apply same_sync_view_update_ui.
Qed.

(** A settled promise finds no one waiting when the task is through. *)
Lemma settle_on_settled w tid t :
  tasks w !! tid = Some t ->
  settled t ->
  (forall r, handle JSON_stringify (FetchSettled tid r) w = w) /\
  handle JSON_stringify (JsonSettled tid) w = w.
Proof.
  intros Hl Hs. unfold settled in Hs. cbn [handle]. rewrite Hl.
  destruct (at_pc t); try contradiction; auto.
Qed.

Lemma settle_on_missing w tid :
  tasks w !! tid = None ->
  (forall r, handle JSON_stringify (FetchSettled tid r) w = w) /\
  handle JSON_stringify (JsonSettled tid) w = w.
Proof. intros Hl. cbn [handle]. now rewrite Hl. Qed.

(** No event moves a task that is through. *)
Lemma handle_keeps_settled ev w n t :
  tasks w !! n = Some t ->
  settled t ->
  tasks (handle JSON_stringify ev w) !! n = Some t.
Proof.
  intros Hl Hs.
  assert (Hmove : forall tid t0 to p,
             tasks w !! tid = Some t0 -> ~ settled t0 ->
             tasks (move_task tid t0 to p w) !! n = Some t).
  { intros tid t0 to p Hl0 Hns. cbn [tasks move_task].
    rewrite list_lookup_insert_ne; [exact Hl|].
    intros ->. rewrite Hl in Hl0. injection Hl0 as <-. contradiction. }
  destruct ev; cbn [handle]; try exact Hl.
  - destruct (start_disabled (the_page w)); [exact Hl|].
    now apply lookup_app_l_Some.
  - unfold interval_callback.
    destruct (ibd _); [exact Hl|]. now apply lookup_app_l_Some.
  - destruct (tasks w !! tid) as [t0|] eqn:E0; [|exact Hl].
    destruct (at_pc t0) eqn:Epc; try exact Hl.
    assert (Hns : ~ settled t0) by (unfold settled; now rewrite Epc).
    unfold resume_fetch. destruct r; now apply Hmove.
  - destruct (tasks w !! tid) as [t0|] eqn:E0; [|exact Hl].
    destruct (at_pc t0) eqn:Epc; try exact Hl.
    assert (Hns : ~ settled t0) by (unfold settled; now rewrite Epc).
    unfold resume_json.
    destruct (read_block body); [| |]; try now apply Hmove.
    destruct (apply_block JSON_stringify h data (the_page w)) as [p2 [|e]];
      now apply Hmove.
Qed.

Lemma finished_at_step ev w n :
  finished_at n w -> finished_at n (handle JSON_stringify ev w).
Proof.
  intros (t & Hl & Hpc). exists t. split; [|exact Hpc].
  apply handle_keeps_settled; [exact Hl|]. unfold settled. now rewrite Hpc.
Qed.

Lemma finished_at_play evs : forall w n,
  finished_at n w -> finished_at n (play JSON_stringify evs w).
Proof.
  induction evs as [|ev evs IH]; intros w n Hf; cbn [play]; [exact Hf|].
  now apply IH, finished_at_step.
Qed.

(** With everything before it through, a task that waits is the last. *)
Lemma waiting_is_last (ts0 : list task) (t t0 : task) tid :
  Forall settled ts0 ->
  (ts0 ++ [t]) !! tid = Some t0 ->
  ~ settled t0 ->
  tid = length ts0 /\ t0 = t.
Proof.
  intros Hall Hl Hns. apply lookup_app_Some in Hl as [Hl | [Hge Hl]].
  - exfalso. apply Hns. eapply Forall_lookup_1; eauto.
  - destruct (tid - length ts0) as [|k] eqn:Ek; cbn in Hl; [|discriminate].
    injection Hl as <-. split; [lia|reflexivity].
Qed.

(** One event other than the start click, while the started task is
    under way: it stays under way (or fails) with the controls untouched,
    or it leaves the loop through [break]. *)
Lemma running_step ev w (ts0 : list task) (p0 : page Chain) :
  ibd_stable ->
  Forall settled ts0 ->
  ibd (florestaChain p0) = true ->
  is_start ev = false ->
  running ts0 p0 w ->
  running ts0 p0 (handle JSON_stringify ev w) \/
  finished_at (length ts0) (handle JSON_stringify ev w).
Proof.
  intros Hst Hall Hibd0 Hev (t & Ht & Hby & Hpc & Hctl).
  assert (Hibd : ibd (florestaChain (the_page w)) = true)
    by (destruct Hctl as (-> & _); exact Hibd0).
  assert (Hstay : forall t' p',
             at_pc t' <> Finished -> started_by t' = BySyncLoop ->
             same_controls (the_page w) p' ->
             running ts0 p0 {| the_page := p'; tasks := ts0 ++ [t'] |}).
  { intros t' p' Hne Hb Hc. exists t'.
    split; [reflexivity|]. split; [exact Hb|]. split; [exact Hne|].
    exact (same_controls_trans _ _ _ Hctl Hc). }
  pose proof (handle_bystander ev w Hst Hibd) as Hby'.
  destruct ev; try discriminate Hev.
  1-4: left; exists t; destruct Hby' as [-> [? _]];
       repeat split; auto; eapply same_controls_trans; eauto.
  - (* the fetch promise settles *)
    left. cbn [handle].
    destruct (tasks w !! tid) as [t0|] eqn:E0; [|now exists t].
    destruct (at_pc t0) eqn:Epc; try now exists t.
    rewrite Ht in E0.
    apply waiting_is_last in E0 as [-> ->];
      [|exact Hall|unfold settled; now rewrite Epc].
    unfold resume_fetch. destruct r as [|body].
    + unfold move_task. rewrite Ht, insert_app_r_alt, Nat.sub_diag by lia.
      apply Hstay; [discriminate|exact Hby|apply same_controls_refl].
    + unfold move_task. rewrite Ht, insert_app_r_alt, Nat.sub_diag by lia.
      apply Hstay; [discriminate|exact Hby|apply same_controls_refl].
  - (* the body promise settles *)
    cbn [handle].
    destruct (tasks w !! tid) as [t0|] eqn:E0; [|left; now exists t].
    destruct (at_pc t0) eqn:Epc; try (left; now exists t).
    rewrite Ht in E0.
    apply waiting_is_last in E0 as [-> ->];
      [|exact Hall|unfold settled; now rewrite Epc].
    unfold resume_json. destruct (read_block body) as [|data|e].
    + right. exists {| started_by := started_by t; at_pc := Finished |}.
      split; [|reflexivity].
      cbn [tasks move_task]. rewrite list_lookup_insert_eq; [reflexivity|].
      rewrite Ht, length_app; cbn; lia.
    + left. unfold apply_block. cbn [florestaChain emit].
      destruct (accept_block (JSON_stringify data) (florestaChain (the_page w)))
        as [c|] eqn:E.
      * unfold move_task. rewrite Ht, insert_app_r_alt, Nat.sub_diag by lia.
        apply Hstay; [discriminate|exact Hby|].
        destruct Hst as (Hacc & _).
        repeat split; cbn; [now apply (Hacc _ _ _ E)|].
        unfold toggle_count. rewrite !count_where_app; cbn. lia.
      * unfold move_task. rewrite Ht, insert_app_r_alt, Nat.sub_diag by lia.
        apply Hstay; [discriminate|exact Hby|].
        repeat split; cbn.
        unfold toggle_count. rewrite !count_where_app; cbn. lia.
    + left. unfold move_task.
      rewrite Ht, insert_app_r_alt, Nat.sub_diag by lia.
      apply Hstay; [discriminate|exact Hby|apply same_controls_refl].
Qed.

Lemma running_play (ts0 : list task) (p0 : page Chain) evs : forall w,
  ibd_stable ->
  Forall settled ts0 ->
  ibd (florestaChain p0) = true ->
  Forall (fun ev => is_start ev = false) evs ->
  running ts0 p0 w ->
  running ts0 p0 (play JSON_stringify evs w) \/
  finished_at (length ts0) (play JSON_stringify evs w).
Proof.
  induction evs as [|ev evs IH]; intros w Hst Hall Hibd Hevs Hrun;
    cbn [play]; [now left|].
  inversion Hevs as [|? ? Hev Hevs']; subst.
  destruct (running_step ev w ts0 p0 Hst Hall Hibd Hev Hrun) as [Hr|Hf].
  - now apply IH.
  - right. now apply finished_at_play.
Qed.

(** While nothing waits and the chain is in initial sync, an event other
    than the start click changes neither the tasks nor the sync view. *)
Lemma quiet_step ev w :
  ibd_stable ->
  is_start ev = false ->
  quiet w ->
  tasks (handle JSON_stringify ev w) = tasks w /\
  same_sync_view (the_page w) (the_page (handle JSON_stringify ev w)).
Proof.
  intros Hst Hev [Hibd Hall].
  pose proof (handle_bystander ev w Hst Hibd) as Hby.
  destruct ev; try discriminate Hev; try exact Hby.
  - destruct (tasks w !! tid) as [t|] eqn:E.
    + destruct (settle_on_settled w tid t E) as [-> _];
        [eapply Forall_lookup_1; eauto|].
      split; [reflexivity|apply same_sync_view_refl].
    + destruct (settle_on_missing w tid E) as [-> _].
      split; [reflexivity|apply same_sync_view_refl].
  - destruct (tasks w !! tid) as [t|] eqn:E.
    + destruct (settle_on_settled w tid t E) as [_ ->];
        [eapply Forall_lookup_1; eauto|].
      split; [reflexivity|apply same_sync_view_refl].
    + destruct (settle_on_missing w tid E) as [_ ->].
      split; [reflexivity|apply same_sync_view_refl].
Qed.

Lemma quiet_play evs : forall w,
  ibd_stable ->
  Forall (fun ev => is_start ev = false) evs ->
  quiet w ->
  tasks (play JSON_stringify evs w) = tasks w /\
  same_sync_view (the_page w) (the_page (play JSON_stringify evs w)).
Proof.
  induction evs as [|ev evs IH]; intros w Hst Hevs Hq; cbn [play].
  - split; [reflexivity|apply same_sync_view_refl].
  - inversion Hevs as [|? ? Hev Hevs']; subst.
    destruct (quiet_step ev w Hst Hev Hq) as [Htk Hv].
    assert (Hq' : quiet (handle JSON_stringify ev w)).
    { destruct Hq as [Hibd Hall]. split; [|now rewrite Htk].
      destruct Hv as ((-> & _) & _). exact Hibd. }
    destruct (IH _ Hst Hevs' Hq') as [Htk' Hv'].
    split; [congruence|].
    eapply same_sync_view_trans; eauto.
Qed.

(** *** The sequential loop is the event loop left alone *)

Lemma move_task_last (ts0 : list task) (t t0 : task) (to : pc) p q :
  move_task (length ts0) t to p {| the_page := q; tasks := ts0 ++ [t0] |} =
  {| the_page := p;
     tasks := ts0 ++ [{| started_by := started_by t; at_pc := to |}] |}.
Proof.
  unfold move_task; cbn [tasks].
  rewrite insert_app_r_alt by lia. now rewrite Nat.sub_diag.
Qed.

Lemma settle_rounds_settled fuel src (ts0 : list task) (t : task) p :
  settled t ->
  settle_rounds JSON_stringify fuel src (length ts0)
    {| the_page := p; tasks := ts0 ++ [t] |} =
  {| the_page := p; tasks := ts0 ++ [t] |}.
Proof.
  intros Hs. destruct fuel as [|fuel]; [reflexivity|].
  cbn [settle_rounds tasks]. rewrite list_lookup_middle by reflexivity.
  unfold settled in Hs. now destruct (at_pc t).
Qed.

(** Feeding the answers of [src] to a waiting task, round after round,
    ends where [update_tip_from] ends; a task made by the start button
    then goes on with the rest of [sync_loop]. *)
Lemma settle_rounds_update_tip src (ts0 : list task) (who : caller) :
  forall fuel h p p' (c : completion),
    update_tip_from JSON_stringify fuel src h p = Some (p', c) ->
    settle_rounds JSON_stringify fuel src (length ts0)
      {| the_page := emit (EvFetch (block_url h)) p;
         tasks := ts0 ++ [{| started_by := who; at_pc := AwaitFetch h |}] |} =
    {| the_page := match c, who with
                   | Normal, BySyncLoop => finish_sync p'
                   | _, _ => p'
                   end;
       tasks := ts0 ++ [{| started_by := who;
                           at_pc := match c with
                                    | Normal => Finished
                                    | Throw e => Failed e
                                    end |}] |}.
Proof.
  induction fuel as [|fuel IH]; intros h p p' c Hrun; [discriminate|].
  cbn [update_tip_from] in Hrun.
  cbn [settle_rounds tasks]. rewrite list_lookup_middle by reflexivity.
  cbn [at_pc handle tasks]. rewrite list_lookup_middle by reflexivity.
  cbn [at_pc]. unfold resume_fetch.
  destruct (src h) as [|body]; cbn [fetch_block] in Hrun.
  - injection Hrun as <- <-.
    rewrite move_task_last; cbn [started_by].
    cbn [tasks]. rewrite list_lookup_middle by reflexivity. cbn [at_pc].
    rewrite settle_rounds_settled by exact I. now destruct who.
  - rewrite move_task_last; cbn [started_by].
    cbn [tasks]. rewrite list_lookup_middle by reflexivity. cbn [at_pc].
    unfold resume_json. cbn [the_page started_by].
    destruct (read_block body) as [|data|e].
    + injection Hrun as <- <-.
      rewrite move_task_last, settle_rounds_settled by exact I.
      now destruct who.
    + destruct (apply_block JSON_stringify h data
                  (emit (EvFetch (block_url h)) p)) as [p2 [|e]].
      * rewrite move_task_last. now apply IH.
      * injection Hrun as <- <-.
        now rewrite move_task_last, settle_rounds_settled by exact I.
    + injection Hrun as <- <-.
      now rewrite move_task_last, settle_rounds_settled by exact I.
Qed.

(** A start click whose task is then served by [src] without
    interruption leaves the page [sync_loop] computes. *)
Lemma start_click_runs_sync_loop src w0 fuel p' (c : completion) :
  start_disabled (the_page w0) = false ->
  sync_loop JSON_stringify fuel src (the_page w0) = Some (p', c) ->
  settle_rounds JSON_stringify fuel src (length (tasks w0))
    (handle JSON_stringify ClickStart w0) =
  {| the_page := p';
     tasks := tasks w0 ++ [{| started_by := BySyncLoop;
                              at_pc := match c with
                                       | Normal => Finished
                                       | Throw e => Failed e
                                       end |}] |}.
Proof.
  intros Hen Hsync. cbn [handle]. rewrite Hen. unfold spawn_update_tip.
  unfold sync_loop, update_tip in Hsync.
  destruct (update_tip_from JSON_stringify fuel src
              (height (florestaChain (the_page w0)) + 1) (the_page w0))
    as [[p1 c1]|] eqn:Hrun; [|discriminate].
  rewrite (settle_rounds_update_tip src (tasks w0) BySyncLoop _ _ _ _ _ Hrun).
  destruct c1; injection Hsync as <- <-; reflexivity.
Qed.

(** C9: a start click on a chain in initial sync with nothing waiting,
    followed by any events other than another start click; if the task
    the click made has failed, then the toggle count is the one before
    the click, the chain is still in initial sync and the start button is
    still enabled; from then on, whatever events other than a start click
    arrive, a tick only calls [update_ui], no task is made or moved,
    nothing is fetched, applied or toggled; and a start click makes a new
    task. *)
Theorem failed_start_leaves_sync_stopped w0 (evs : list event) (e : error) :
  ibd_stable ->
  Forall settled (tasks w0) ->
  ibd (florestaChain (the_page w0)) = true ->
  start_disabled (the_page w0) = false ->
  Forall (fun ev => is_start ev = false) evs ->
  (exists t,
     tasks (play JSON_stringify evs (handle JSON_stringify ClickStart w0))
       !! length (tasks w0) = Some t /\
     at_pc t = Failed e) ->
  let w1 := play JSON_stringify evs (handle JSON_stringify ClickStart w0) in
  toggle_count (effects (the_page w1)) = toggle_count (effects (the_page w0)) /\
  ibd (florestaChain (the_page w1)) = true /\
  start_disabled (the_page w1) = false /\
  (forall evs',
     Forall (fun ev => is_start ev = false) evs' ->
     let w2 := play JSON_stringify evs' w1 in
     handle JSON_stringify Tick w2 = with_page (update_ui (the_page w2)) w2 /\
     tasks w2 = tasks w1 /\
     same_sync_view (the_page w1) (the_page w2) /\
     tasks (handle JSON_stringify ClickStart w2) =
       tasks w2 ++
       [{| started_by := BySyncLoop;
           at_pc := AwaitFetch (height (florestaChain (the_page w2)) + 1) |}]).
Proof.
  intros Hst Hall Hibd Hen Hevs (t & Hl & Hfail) w1. subst w1.
  assert (Hrun0 : running (tasks w0) (the_page w0)
                    (handle JSON_stringify ClickStart w0)).
  { cbn [handle]. rewrite Hen. unfold spawn_update_tip.
    eexists. split; [reflexivity|].
    split; [reflexivity|]. split; [discriminate|].
    repeat split; cbn.
    unfold toggle_count. rewrite count_where_app; cbn. lia. }
  destruct (running_play (tasks w0) (the_page w0) evs _ Hst Hall Hibd Hevs Hrun0)
    as [(t' & Ht & Hby & Hpc & Hctl) | (t' & Hl' & Hpc')].
  2:{ rewrite Hl in Hl'. injection Hl' as <-. congruence. }
  rewrite Ht, list_lookup_middle in Hl by reflexivity.
  injection Hl as <-.
  set (w1 := play JSON_stringify evs (handle JSON_stringify ClickStart w0)) in *.
  destruct Hctl as (Hibd1 & Hen1 & Htog1).
  rewrite Hibd in Hibd1. rewrite Hen in Hen1.
  assert (Hq : quiet w1).
  { split; [exact Hibd1|]. rewrite Ht. apply Forall_app. split; [exact Hall|].
    constructor; [|constructor]. unfold settled. now rewrite Hfail. }
  split; [exact Htog1|]. split; [exact Hibd1|]. split; [exact Hen1|].
  intros evs' Hevs' w2. subst w2.
  destruct (quiet_play evs' w1 Hst Hevs' Hq) as [Htk Hview].
  pose proof Hview as ((Hibd2 & Hen2 & _) & _).
  rewrite Hibd1 in Hibd2. rewrite Hen1 in Hen2.
  split; [now apply tick_in_ibd|].
  split; [exact Htk|]. split; [exact Hview|].
  cbn [handle]. now rewrite Hen2.
Qed.

(** ** Where the toggle comes from *)

Lemma toggle_count_add_address p :
  toggle_count (effects (fst (add_address_to_wallet p))) =
  toggle_count (effects p).
Proof.
  unfold add_address_to_wallet; cbn [florestaChain emit].
  destruct (add_address (wallet_value p) (florestaChain p)); cbn;
    unfold toggle_count; rewrite count_where_app; cbn; lia.
Qed.

Lemma toggle_count_add_random p :
  toggle_count (effects (fst (add_random_address_to_wallet p))) =
  toggle_count (effects p).
Proof.
  unfold add_random_address_to_wallet.
  destruct (get_random_address (florestaChain p)) as [a c].
  rewrite toggle_count_add_address. cbn.
  unfold toggle_count. rewrite !count_where_app; cbn. lia.
Qed.

Lemma toggle_count_apply_block h data p :
  toggle_count (effects (fst (apply_block JSON_stringify h data p))) =
  toggle_count (effects p).
Proof.
  unfold apply_block; cbn [florestaChain emit].
  destruct (accept_block (JSON_stringify data) (florestaChain p)); cbn;
    unfold toggle_count; rewrite !count_where_app; cbn; lia.
Qed.

(** An event toggles exactly when it brings a [sync_loop] back from
    [await update_tip()], and then once: the timer's ticks and the runs
    of [update_tip] the timer starts never toggle. *)
Lemma handle_toggle_count ev w :
  toggle_count (effects (the_page (handle JSON_stringify ev w))) =
  toggle_count (effects (the_page w)) +
  (if completes_sync_loop ev w then 1 else 0).
Proof.
  destruct ev; cbn [handle completes_sync_loop]; rewrite ?Nat.add_0_r.
  - destruct (start_disabled (the_page w)); [reflexivity|]. cbn.
    unfold toggle_count. rewrite count_where_app; cbn. lia.
  - apply toggle_count_add_address.
  - apply toggle_count_add_random.
  - reflexivity.
  - unfold interval_callback. cbn [the_page with_page].
    destruct (ibd _); cbn [the_page with_page spawn_update_tip effects emit].
    + apply toggle_count_update_ui.
    + unfold toggle_count. rewrite count_where_app; cbn.
      fold (toggle_count (effects (update_ui (the_page w)))).
      rewrite toggle_count_update_ui. unfold toggle_count. lia.
  - destruct (tasks w !! tid) as [t|]; [|reflexivity].
    destruct (at_pc t); try reflexivity.
    unfold resume_fetch. now destruct r.
  - destruct (tasks w !! tid) as [[who at_]|]; [|lia].
    cbn [at_pc started_by].
    destruct at_ as [h|h body| |e]; try (destruct who; lia).
    unfold resume_json. cbn [started_by].
    destruct (read_block body) as [|data|e].
    + destruct who; cbn [the_page move_task]; [|lia].
      rewrite toggle_count_finish_sync. lia.
    + pose proof (toggle_count_apply_block h data (the_page w)) as Happ.
      destruct (apply_block JSON_stringify h data (the_page w)) as [p2 [|e]];
        cbn [fst] in Happ; cbn [the_page move_task effects emit];
        destruct who; rewrite <- Happ; try lia;
        unfold toggle_count; rewrite count_where_app; cbn; lia.
    + destruct who; cbn; lia.
Qed.

Lemma start_disabled_add_address p :
  start_disabled (fst (add_address_to_wallet p)) = start_disabled p.
Proof.
  unfold add_address_to_wallet; cbn [florestaChain emit].
  now destruct (add_address (wallet_value p) (florestaChain p)).
Qed.

Lemma start_disabled_add_random p :
  start_disabled (fst (add_random_address_to_wallet p)) = start_disabled p.
Proof.
  unfold add_random_address_to_wallet.
  destruct (get_random_address (florestaChain p)) as [a c].
  now rewrite start_disabled_add_address.
Qed.

Lemma start_disabled_apply_block h data p :
  start_disabled (fst (apply_block JSON_stringify h data p)) = start_disabled p.
Proof.
  unfold apply_block; cbn [florestaChain emit].
  now destruct (accept_block (JSON_stringify data) (florestaChain p)).
Qed.

(** The start button is disabled by the end of a [sync_loop] and by
    nothing else; nothing enables it again. *)
Lemma handle_start_disabled ev w :
  start_disabled (the_page (handle JSON_stringify ev w)) =
  if completes_sync_loop ev w then true else start_disabled (the_page w).
Proof.
  destruct ev; cbn [handle completes_sync_loop].
  - now destruct (start_disabled (the_page w)) eqn:E.
  - apply start_disabled_add_address.
  - apply start_disabled_add_random.
  - reflexivity.
  - unfold interval_callback. cbn [the_page with_page].
    destruct (ibd _); cbn; apply update_ui_start_disabled.
  - destruct (tasks w !! tid) as [t|]; [|reflexivity].
    destruct (at_pc t); try reflexivity.
    unfold resume_fetch. now destruct r.
  - destruct (tasks w !! tid) as [[who at_]|]; [|reflexivity].
    cbn [at_pc started_by].
    destruct at_ as [h|h body| |e]; try (now destruct who).
    unfold resume_json. cbn [started_by].
    destruct (read_block body) as [|data|e].
    + now destruct who.
    + pose proof (start_disabled_apply_block h data (the_page w)) as Happ.
      destruct (apply_block JSON_stringify h data (the_page w)) as [p2 [|e]];
        cbn [fst] in Happ; now destruct who.
    + now destruct who.
Qed.

Lemma syncs_in_flight_app (ts1 ts2 : list task) :
  syncs_in_flight (ts1 ++ ts2) = syncs_in_flight ts1 + syncs_in_flight ts2.
Proof.
  induction ts1 as [|t ts1 IH]; cbn; [reflexivity|]. rewrite IH. lia.
Qed.

Lemma syncs_in_flight_insert (ts : list task) : forall i (t t' : task),
  ts !! i = Some t ->
  syncs_in_flight (<[i := t']> ts) + (if waits_for_sync t then 1 else 0) =
  syncs_in_flight ts + (if waits_for_sync t' then 1 else 0).
Proof.
  induction ts as [|t0 ts IH]; intros [|i] t t' Hl; try discriminate.
  - injection Hl as ->. simpl.
    destruct (waits_for_sync t), (waits_for_sync t'); lia.
  - simpl in Hl. simpl. specialize (IH i t t' Hl).
    destruct (waits_for_sync t0); lia.
Qed.

(** How an event moves the number of waiting [sync_loop]s: the start
    click on an enabled button adds one; a task started by the button
    that fails or leaves the loop takes one away. *)
Lemma handle_syncs_in_flight ev w :
  syncs_in_flight (tasks (handle JSON_stringify ev w)) +
    (if completes_sync_loop ev w then 1 else 0) <=
  syncs_in_flight (tasks w) +
    (if andb (is_start ev) (negb (start_disabled (the_page w))) then 1 else 0).
Proof.
  destruct ev; cbn [handle completes_sync_loop is_start andb];
    rewrite ?Nat.add_0_r.
  - destruct (start_disabled (the_page w)); cbn; [lia|].
    rewrite syncs_in_flight_app. cbn. lia.
  - cbn. lia.
  - cbn. lia.
  - cbn. lia.
  - unfold interval_callback. cbn [the_page with_page].
    destruct (ibd _); cbn; [lia|]. rewrite syncs_in_flight_app. cbn. lia.
  - destruct (tasks w !! tid) as [t|] eqn:E; [|lia].
    destruct (at_pc t) eqn:Epc; try lia.
    unfold resume_fetch.
    destruct r; cbn [tasks move_task];
      pose proof (syncs_in_flight_insert (tasks w) tid t) as Hins;
      match goal with |- context [<[tid := ?t']> _] =>
        specialize (Hins t' E) end;
      unfold waits_for_sync in Hins; rewrite Epc in Hins;
      cbn [started_by at_pc] in Hins; destruct (started_by t); lia.
  - destruct (tasks w !! tid) as [t|] eqn:E; [|lia].
    destruct t as [who at_]. cbn [at_pc started_by].
    destruct at_ as [h|h body| |e]; try (destruct who; lia).
    unfold resume_json. cbn [started_by].
    pose proof (syncs_in_flight_insert (tasks w) tid
                  {| started_by := who; at_pc := AwaitJson h body |}) as Hins.
    destruct (read_block body) as [|data|e];
      [| destruct (apply_block JSON_stringify h data (the_page w))
           as [p2 [|e]] |];
      cbn [tasks move_task started_by];
      match goal with |- context [<[tid := ?t']> _] =>
        specialize (Hins t' E) end;
      unfold waits_for_sync in Hins;
      cbn [started_by at_pc] in Hins; destruct who; lia.
Qed.

Lemma one_shot_step ev w :
  (is_start ev = true -> syncs_in_flight (tasks w) = 0) ->
  one_shot w ->
  one_shot (handle JSON_stringify ev w).
Proof.
  intros Hguard [Hsum Hen]. unfold one_shot.
  pose proof (handle_syncs_in_flight ev w) as Hfl.
  rewrite handle_toggle_count, handle_start_disabled.
  destruct (completes_sync_loop ev w) eqn:Hc.
  - assert (Hev : is_start ev = false) by (now destruct ev).
    rewrite Hev in Hfl. cbn [andb] in Hfl.
    split; [lia|discriminate].
  - destruct (is_start ev) eqn:Hev; cbn [andb] in Hfl.
    + destruct (start_disabled (the_page w)) eqn:Hd; cbn [negb] in Hfl.
      * split; [lia|discriminate].
      * specialize (Hguard eq_refl). specialize (Hen eq_refl).
        split; [lia|]. intros _. lia.
    + split; [lia|]. intros Hd. specialize (Hen Hd). lia.
Qed.

(** When the start button is only clicked while no [sync_loop] is
    waiting, the whole life of the page sees at most one toggle. *)
Lemma single_flight_toggles_at_most_once evs : forall w,
  single_flight JSON_stringify evs w ->
  one_shot w ->
  one_shot (play JSON_stringify evs w) /\
  toggle_count (effects (the_page (play JSON_stringify evs w))) <= 1.
Proof.
  induction evs as [|ev evs IH]; intros w Hsf Hone; cbn [play].
  - split; [exact Hone|]. destruct Hone as [Hsum _]. lia.
  - destruct Hsf as [Hguard Hrest].
    apply IH; [exact Hrest|]. now apply one_shot_step.
Qed.

Lemma one_shot_run : one_shot run.
Proof.
  unfold one_shot, run. cbn [tasks the_page set_start_disabled effects].
  rewrite toggle_count_update_ui. cbn. split; [lia|reflexivity].
Qed.

End Facts.

(** * The script on the chain object [Toy] *)

Import Toy.

Lemma toy_height_steps : @height_steps chain _.
Proof.
  intros s c c'. cbn. unfold accept.
  destruct (well_formed s); [|discriminate].
  intros [= <-]. cbn. rewrite length_app. reflexivity.
Defined.

Lemma toy_ibd_stable : @ibd_stable chain _.
Proof.
  repeat split.
  - intros s c c'. cbn. unfold accept.
    destruct (well_formed s); [|discriminate]. now intros [= <-].
  - intros a c c'. cbn. unfold add.
    destruct (malformed a); [discriminate|]. now intros [= <-].
Defined.

(** ** Runs of the sync loop *)

(** No block at height 1, on the page [run] leaves: [sync_loop] toggles
    the chain out of initial sync and calls [update_ui], which finds the
    tip already rendered and writes nothing; the page goes on showing
    the sync flag from before the toggle. *)
Lemma sync_at_rendered_tip_redraws_nothing :
  height (florestaChain (the_page run)) = 0 /\
  fetch_block (bridge 0 (0 + 1)) = BlockAbsent /\
  exists p',
    sync_loop stringify 1 (bridge 0) (the_page run) = Some (p', Normal) /\
    toggle_count (effects p') = 1 /\
    render_count (effects p') = render_count (effects (the_page run)) /\
    render_count (effects p') <> render_count (effects (the_page run)) + 1 /\
    height_html p' = height_html (the_page run) /\
    our_txs_html p' = our_txs_html (the_page run) /\
    ibd (florestaChain p') = false /\
    option_map shown_ibd (height_html p') = Some true.
Proof.
  split; [reflexivity|]. split; [reflexivity|].
  eexists. split; [reflexivity|].
  repeat split. discriminate.
Qed.

Lemma sync_loop_applies_all_blocks_witness :
  height (florestaChain (the_page run)) = 0 /\
  exists p1,
    sync_loop stringify 3 (bridge 2) (the_page run) =
      Some (finish_sync p1, Normal) /\
    accepted_payloads (effects p1) =
      [stringify (JObj [("block", JStr "b1")]);
       stringify (JObj [("block", JStr "b2")])] /\
    toggle_count (effects (finish_sync p1)) = 1 /\
    render_count (effects (finish_sync p1)) =
      render_count (effects (the_page run)) + 1 /\
    option_map shown_height (height_html (finish_sync p1)) = Some 2 /\
    option_map shown_ibd (height_html (finish_sync p1)) = Some false.
Proof.
  pose (data_at := fun h => JObj [("block", JStr ("b" ++ decimal h))]).
  pose (c2 := {| blocks := [stringify (data_at 1); stringify (data_at 2)];
                 in_ibd := true;
                 watched := [] |}).
  assert (Hh : height (florestaChain (the_page run)) = 0) by reflexivity.
  assert (Hsrc : forall h, 1 <= h <= 2 ->
            fetch_block (bridge 2 h) = BlockPresent (data_at h)).
  { intros h Hh'. assert (Hcases : h = 1 \/ h = 2) by lia.
    destruct Hcases as [-> | ->]; reflexivity. }
  assert (Habs : fetch_block (bridge 2 (2 + 1)) = BlockAbsent) by reflexivity.
  assert (Hacc : accept_all (map (fun h => stringify (data_at h)) (seq 1 2))
                   (florestaChain (the_page run)) = Some c2) by reflexivity.
  assert (Hfuel : 2 < 3) by lia.
  split; [exact Hh|].
  destruct (sync_loop_applies_all_blocks stringify 2 (bridge 2) data_at
              (the_page run) c2 3 Hh Hsrc Habs Hacc Hfuel)
    as (p1 & _ & Hsync & _ & Hacc' & _ & _ & Htog & _ & _ & _ & _ & _
        & Hrender & Hhtml & _).
  exists p1. split; [exact Hsync|]. split; [exact Hacc'|].
  split; [exact Htog|]. split; [exact Hrender|].
  rewrite Hhtml. split; reflexivity.
Defined.

Lemma sync_loop_halts_on_rejected_block_witness :
  accept_block (stringify (JObj [("bad", JBool true)]))
    {| blocks := [stringify (JObj [("block", JStr "b1")]);
                  stringify (JObj [("block", JStr "b2")])];
       in_ibd := true;
       watched := [] |} = None /\
  exists p',
    sync_loop stringify 3 bridge_bad3 (the_page run) =
      Some (p', Throw ValidationError) /\
    height (florestaChain p') = 2 /\
    toggle_count (effects p') = 0.
Proof.
  pose (d1 := JObj [("block", JStr "b1")]).
  pose (d2 := JObj [("block", JStr "b2")]).
  pose (d3 := JObj [("bad", JBool true)]).
  pose (c1 := {| blocks := [stringify d1]; in_ibd := true; watched := [] |}).
  pose (c2 := {| blocks := [stringify d1; stringify d2];
                 in_ibd := true;
                 watched := [] |}).
  assert (Hh : height (florestaChain (the_page run)) = 0) by reflexivity.
  assert (H1 : fetch_block (bridge_bad3 1) = BlockPresent d1) by reflexivity.
  assert (H2 : fetch_block (bridge_bad3 2) = BlockPresent d2) by reflexivity.
  assert (H3 : fetch_block (bridge_bad3 3) = BlockPresent d3) by reflexivity.
  assert (A1 : accept_block (stringify d1) (florestaChain (the_page run))
               = Some c1) by reflexivity.
  assert (A2 : accept_block (stringify d2) c1 = Some c2) by reflexivity.
  assert (A3 : accept_block (stringify d3) c2 = None) by reflexivity.
  assert (Hfuel : 3 <= 3) by lia.
  split; [exact A3|].
  destruct (sync_loop_halts_on_rejected_block stringify bridge_bad3 d1 d2 d3
              (the_page run) c1 c2 3 Hh toy_height_steps H1 H2 H3 A1 A2 A3
              Hfuel)
    as (p' & Hsync & _ & _ & _ & _ & Hheight & Htog & _).
  exists p'. split; [exact Hsync|]. split; [exact Hheight|exact Htog].
Defined.

Lemma update_tip_refines_design_witness :
  update_tip stringify 5 (bridge 2) (the_page run) =
  update_tip_recomputing stringify 5 (bridge 2) (the_page run).
Proof.
  apply (@update_tip_refines_design chain toy_chain stringify (bridge 2) 5 (the_page run)).
  exact toy_height_steps.
Defined.

(** ** The block source client *)

(** A body whose [data] carries no [block] field is not treated as the
    end of the chain: its [data] goes to the chain object. *)
Lemma data_without_block_is_present :
  has_data_block (JObj [("data", JObj [("bad", JBool true)])]) = false /\
  fetch_block (FetchResponse (Some (JObj [("data", JObj [("bad", JBool true)])])))
    = BlockPresent (JObj [("bad", JBool true)]) /\
  ~ (forall j, fetch_block (FetchResponse (Some j)) = BlockAbsent <->
               has_data_block j = false).
Proof.
  split; [reflexivity|]. split; [reflexivity|].
  intros Hclaim.
  specialize (Hclaim (JObj [("data", JObj [("bad", JBool true)])])).
  destruct Hclaim as [_ Hback]. discriminate (Hback eq_refl).
Qed.

Lemma fetch_block_decided_by_data_witness :
  block_at 1 <> JNull /\
  fetch_block (FetchResponse (Some (block_at 1))) =
    BlockPresent (JObj [("block", JStr "b1")]).
Proof.
  split; [discriminate|].
  assert (Hj : block_at 1 <> JNull) by discriminate.
  apply (@fetch_block_decided_by_data chain toy_chain stringify (block_at 1) Hj).
  split; reflexivity.
Defined.

Lemma transport_failure_propagates_witness :
  transport_failure FetchRejected /\
  fetch_block FetchRejected = FetchThrows TransportError /\
  update_tip_from stringify 1 (fun _ => FetchRejected) 1 (the_page run) =
    Some (emit (EvFetch (block_url 1)) (the_page run), Throw TransportError).
Proof.
  assert (Hr : transport_failure FetchRejected) by now left.
  split; [exact Hr|].
  destruct (@transport_failure_propagates chain toy_chain stringify
              FetchRejected Hr) as (Hthrow & _ & Hround & _).
  split; [exact Hthrow|].
  now apply Hround.
Defined.

(** ** The wallet field *)

(** The field holds [" abc"]: that text, not ["abc"], is what
    [add_address] is called with. *)
Lemma add_address_does_not_trim :
  js_trim " abc" = "abc" /\
  forwarded_addresses
    (effects (fst (add_address_to_wallet
                     (set_wallet_value " abc" (the_page run))))) = [" abc"] /\
  forwarded_addresses
    (effects (fst (add_address_to_wallet
                     (set_wallet_value " abc" (the_page run))))) <>
  [js_trim (wallet_value (set_wallet_value " abc" (the_page run)))].
Proof.
  split; [reflexivity|]. split; [reflexivity|]. discriminate.
Qed.

Lemma failed_add_keeps_field_witness :
  add_address "not an address" (florestaChain (the_page run)) = None /\
  wallet_value
    (fst (add_address_to_wallet
            (set_wallet_value "not an address" (the_page run)))) =
  "not an address".
Proof.
  split; [reflexivity|].
  apply (@failed_add_keeps_field chain toy_chain
           (set_wallet_value "not an address" (the_page run))).
  reflexivity.
Defined.

(** ** The display *)

(** After the first render of [run], two more calls of [update_ui] with
    the tip unchanged write nothing at all. *)
Lemma rendered_tip_is_not_rendered_again :
  tip (florestaChain (update_ui (the_page run))) =
    tip (florestaChain (the_page run)) /\
  render_count (effects (update_ui (update_ui (the_page run)))) =
    render_count (effects (the_page run)) /\
  render_count (effects (update_ui (update_ui (the_page run)))) <>
    render_count (effects (the_page run)) + 1.
Proof.
  split; [reflexivity|]. split; [reflexivity|]. discriminate.
Qed.

Lemma update_ui_renders_new_tip_once_witness :
  tip_unchanged (the_page run) = true /\
  update_ui (the_page run) = the_page run.
Proof.
  split; [reflexivity|].
  apply (@update_ui_renders_new_tip_once chain toy_chain (the_page run)).
  reflexivity.
Defined.

(** ** The start button *)

(** C3, on the script as it is: two start clicks before the first fetch
    has come back, against a bridge without blocks.  Both runs of
    [sync_loop] reach [toggle_ibd]: the toggle is called twice, and the
    chain is back in initial sync. *)
Theorem double_start_toggles_twice :
  let absent := FetchResponse (Some (JObj [])) in
  let w := play stringify
             [ClickStart; ClickStart;
              FetchSettled 0 absent; FetchSettled 1 absent;
              JsonSettled 0; JsonSettled 1] run in
  toggle_count (effects (the_page w)) = 2 /\
  ibd (florestaChain (the_page w)) = true /\
  start_disabled (the_page w) = true /\
  tasks w = [{| started_by := BySyncLoop; at_pc := Finished |};
             {| started_by := BySyncLoop; at_pc := Finished |}].
Proof. repeat split. Qed.

Lemma failed_start_leaves_sync_stopped_witness :
  ibd (florestaChain (the_page run)) = true /\
  start_disabled (the_page run) = false /\
  let w1 := play stringify [Tick; FetchSettled 0 FetchRejected; Tick]
              (handle stringify ClickStart run) in
  tasks w1 = [{| started_by := BySyncLoop; at_pc := Failed TransportError |}] /\
  toggle_count (effects (the_page w1)) = 0 /\
  ibd (florestaChain (the_page w1)) = true /\
  start_disabled (the_page w1) = false.
Proof.
  split; [reflexivity|]. split; [reflexivity|].
  split; [reflexivity|].
  assert (Hfailed : exists t,
            tasks (play stringify [Tick; FetchSettled 0 FetchRejected; Tick]
                     (handle stringify ClickStart run))
              !! length (tasks (@run chain _)) = Some t /\
            at_pc t = Failed TransportError)
    by (eexists; split; reflexivity).
  assert (Hevs : Forall (fun ev => is_start ev = false)
                   [Tick; FetchSettled 0 FetchRejected; Tick])
    by (repeat constructor).
  assert (Hall : Forall settled (tasks (@run chain _))) by constructor.
  assert (Hibd0 : ibd (florestaChain (the_page run)) = true) by reflexivity.
  assert (Hen0 : start_disabled (the_page (@run chain _)) = false)
    by reflexivity.
  destruct (failed_start_leaves_sync_stopped stringify run
              [Tick; FetchSettled 0 FetchRejected; Tick] TransportError
              toy_ibd_stable Hall Hibd0 Hen0 Hevs Hfailed)
    as (Htog & Hibd & Hen & _).
  split; [exact Htog|]. split; [exact Hibd|exact Hen].
Defined.

(** * More of the script *)

Section Coverage.

Context {Chain : Type} `{FlorestaChain Chain}.
Variable JSON_stringify : json -> string.

Implicit Types (p : page Chain) (w : @world Chain) (src : nat -> fetch_result).

(** ** [add_random_address_to_wallet] *)

(** X1: the random-address button asks the chain for an address, shows
    the alert for it, and only then calls [add_address], with exactly
    that address on the chain [get_random_address] left; when the call
    returns the field is empty, when it throws the field holds the
    generated address. *)
Theorem add_random_address_flow p :
  effects (fst (add_random_address_to_wallet p)) =
    effects p ++
    [EvGetRandomAddress;
     EvAlert ("Address " +:+ fst (get_random_address (florestaChain p))
                +:+ " added to wallet");
     EvAddAddress (fst (get_random_address (florestaChain p)))] /\
  match add_address (fst (get_random_address (florestaChain p)))
                    (snd (get_random_address (florestaChain p))) with
  | Some c =>
      snd (add_random_address_to_wallet p) = Normal /\
      florestaChain (fst (add_random_address_to_wallet p)) = c /\
      wallet_value (fst (add_random_address_to_wallet p)) = ""
  | None =>
      snd (add_random_address_to_wallet p) = Throw InputError /\
      florestaChain (fst (add_random_address_to_wallet p)) =
        snd (get_random_address (florestaChain p)) /\
      wallet_value (fst (add_random_address_to_wallet p)) =
        fst (get_random_address (florestaChain p))
  end.
Proof.
  unfold add_random_address_to_wallet.
  destruct (get_random_address (florestaChain p)) as [a c]. cbn [fst snd].
  unfold add_address_to_wallet.
  cbn [florestaChain wallet_value emit set_chain set_wallet_value].
  destruct (add_address a c) as [c'|]; cbn;
    rewrite <- !app_assoc; repeat split.
Qed.

(** ** [update_tip] against any block source *)

(** Where a run of the loop stops, for any source: after [n] blocks
    taken, at the first height that is absent, throws or is refused. *)
Lemma update_tip_from_stops src : forall fuel h p p' (c : completion),
  update_tip_from JSON_stringify fuel src h p = Some (p', c) ->
  exists n,
    n < fuel /\
    fetched_urls (effects p') =
      fetched_urls (effects p) ++ map block_url (seq h (S n)) /\
    length (accepted_payloads (effects p')) =
      length (accepted_payloads (effects p)) + n /\
    (forall k, h <= k < h + n ->
               exists d, fetch_block (src k) = BlockPresent d) /\
    match fetch_block (src (h + n)) with
    | BlockAbsent => c = Normal
    | FetchThrows e => c = Throw e
    | BlockPresent d =>
        c = Throw ValidationError /\
        accept_block (JSON_stringify d) (florestaChain p') = None
    end /\
    (height_steps ->
     height (florestaChain p') = height (florestaChain p) + n).
Proof.
  induction fuel as [|fuel IH]; intros h p p' c Hrun; [discriminate|].
  cbn [update_tip_from] in Hrun.
  destruct (fetch_block (src h)) as [|d|e] eqn:Ef.
  - injection Hrun as <- <-. exists 0.
    replace (h + 0) with h by lia. rewrite Ef.
    cbn [effects emit florestaChain].
    rewrite fetched_urls_app, accepted_payloads_app; cbn -[block_url].
    rewrite app_nil_r.
    repeat split; lia.
  - unfold apply_block in Hrun. cbn [florestaChain emit] in Hrun.
    destruct (accept_block (JSON_stringify d) (florestaChain p))
      as [c1|] eqn:Ea.
    + apply IH in Hrun as (n & Hn & Hf & Ha & Hpres & Hstop & Hheight).
      exists (S n).
      cbn [effects emit set_chain florestaChain] in Hf, Ha, Hheight.
      rewrite !fetched_urls_app in Hf. rewrite !accepted_payloads_app in Ha.
      cbn -[block_url] in Hf. cbn in Ha.
      rewrite !app_nil_r in Hf. rewrite !app_nil_r, length_app in Ha.
      cbn in Ha.
      split; [lia|]. split.
      { rewrite Hf, <- app_assoc. reflexivity. }
      split; [lia|]. split.
      { intros k Hk. destruct (decide (k = h)) as [->|Hne].
        - now exists d.
        - apply Hpres. lia. }
      split.
      { now replace (h + S n) with (S h + n) by lia. }
      intros Hstep. rewrite (Hheight Hstep), (Hstep _ _ _ Ea). lia.
    + injection Hrun as <- <-. exists 0.
      replace (h + 0) with h by lia. rewrite Ef.
    cbn [effects emit florestaChain].
      rewrite !fetched_urls_app, !accepted_payloads_app; cbn -[block_url].
      rewrite !app_nil_r.
        repeat split; try lia; assumption.
  - injection Hrun as <- <-. exists 0.
    replace (h + 0) with h by lia. rewrite Ef.
    cbn [effects emit florestaChain].
    rewrite fetched_urls_app, accepted_payloads_app; cbn -[block_url].
    rewrite app_nil_r.
    repeat split; lia.
Qed.

(** X5: whatever the block source answers, a run of [update_tip] that
    ends has fetched consecutive heights [h, h+1, .., h+n] in this order
    and nothing else, has applied exactly [n] blocks, one for each of the
    heights below [h+n], and has ended on what the source answered at
    [h+n]: no block (normal return), a failure (thrown on), or a block
    the chain refused. *)
Theorem update_tip_fetches_in_order src fuel h p p' (c : completion) :
  update_tip_from JSON_stringify fuel src h p = Some (p', c) ->
  exists n,
    n < fuel /\
    fetched_urls (effects p') =
      fetched_urls (effects p) ++ map block_url (seq h (S n)) /\
    length (accepted_payloads (effects p')) =
      length (accepted_payloads (effects p)) + n /\
    (forall k, h <= k < h + n ->
               exists d, fetch_block (src k) = BlockPresent d) /\
    match fetch_block (src (h + n)) with
    | BlockAbsent => c = Normal
    | FetchThrows e => c = Throw e
    | BlockPresent _ => c = Throw ValidationError
    end.
Proof.
  intros Hrun.
  destruct (update_tip_from_stops src fuel h p p' c Hrun)
    as (n & Hn & Hf & Ha & Hpres & Hstop & _).
  exists n. repeat split; try assumption.
  destruct (fetch_block (src (h + n))); tauto.
Qed.

(** X7: when every applied block raises the height by one, [update_tip]
    stops exactly one above the height it leaves the chain at: the
    answer of the source for that next height is what ended the run, so
    a later run starts by asking for the same height again. *)
Theorem update_tip_stops_at_next_height src fuel p p' (c : completion) :
  height_steps ->
  update_tip JSON_stringify fuel src p = Some (p', c) ->
  height (florestaChain p) <= height (florestaChain p') /\
  match fetch_block (src (height (florestaChain p') + 1)) with
  | BlockAbsent => c = Normal
  | FetchThrows e => c = Throw e
  | BlockPresent d =>
      c = Throw ValidationError /\
      accept_block (JSON_stringify d) (florestaChain p') = None
  end.
Proof.
  intros Hstep Hrun. unfold update_tip in Hrun.
  destruct (update_tip_from_stops src fuel _ p p' c Hrun)
    as (n & _ & _ & _ & _ & Hstop & Hheight).
  specialize (Hheight Hstep). split; [lia|].
  now replace (height (florestaChain p') + 1)
    with (height (florestaChain p) + 1 + n) by lia.
Qed.

Lemma page_untouched_refl p : page_untouched p p.
Proof. now repeat split. Qed.

Lemma page_untouched_trans p1 p2 p3 :
  page_untouched p1 p2 -> page_untouched p2 p3 -> page_untouched p1 p3.
Proof. unfold page_untouched. intuition congruence. Qed.

Lemma page_untouched_apply_block h (data : json) p :
  page_untouched p (fst (apply_block JSON_stringify h data p)).
Proof.
  unfold apply_block; cbn [florestaChain emit].
  destruct (accept_block (JSON_stringify data) (florestaChain p));
    repeat split; cbn; unfold render_count, toggle_count;
    rewrite !count_where_app; cbn; lia.
Qed.

Lemma page_untouched_fetch h p : page_untouched p (emit (EvFetch (block_url h)) p).
Proof.
  repeat split; cbn [effects emit]; unfold render_count, toggle_count;
    rewrite count_where_app; cbn; lia.
Qed.

(** X6: [update_tip] alone writes nothing to the page: whatever the
    source answers and however the run ends, [last_tip], both
    paragraphs, the wallet field and the start button are as before, and
    nothing was rendered or toggled. *)
Theorem update_tip_leaves_page_alone src : forall fuel h p p' (c : completion),
  update_tip_from JSON_stringify fuel src h p = Some (p', c) ->
  page_untouched p p'.
Proof.
  induction fuel as [|fuel IH]; intros h p p' c Hrun; [discriminate|].
  cbn [update_tip_from] in Hrun.
  pose proof (page_untouched_fetch h p) as Hfetch.
  destruct (fetch_block (src h)) as [|d|e].
  - now injection Hrun as <- <-.
  - pose proof (page_untouched_apply_block h d (emit (EvFetch (block_url h)) p))
      as Happ.
    destruct (apply_block JSON_stringify h d (emit (EvFetch (block_url h)) p))
      as [p2 [|e]]; cbn [fst] in Happ.
    + apply IH in Hrun.
      eapply page_untouched_trans; [|exact Hrun].
      eapply page_untouched_trans; eauto.
    + injection Hrun as <- <-. eapply page_untouched_trans; eauto.
  - now injection Hrun as <- <-.
Qed.

(** ** The URL of a block *)

Lemma append_cancel_l (pre s1 s2 : string) :
  pre +:+ s1 = pre +:+ s2 -> s1 = s2.
Proof.
  induction pre as [|a pre IH]; cbn; [auto|].
  intros [= Heq]. now apply IH.
Qed.

Lemma to_uint_not_nil (n : nat) : Nat.to_uint n <> Decimal.Nil.
Proof.
  intros Hnil.
  assert (Hn : n = 0)
    by (rewrite <- (DecimalNat.Unsigned.of_to n), Hnil; reflexivity).
  subst n. discriminate Hnil.
Qed.

(** X10: two heights are fetched at the same URL only when they are the
    same height. *)
Theorem block_url_injective (h1 h2 : nat) :
  block_url h1 = block_url h2 -> h1 = h2.
Proof.
  unfold block_url. intros Heq. apply append_cancel_l in Heq.
  apply DecimalNat.Unsigned.to_uint_inj.
  pose proof (NilZero.usu (Nat.to_uint h1) (to_uint_not_nil h1)) as H1.
  pose proof (NilZero.usu (Nat.to_uint h2) (to_uint_not_nil h2)) as H2.
  rewrite Heq, H2 in H1. now injection H1.
Qed.

(** ** The timer outside initial sync *)

Lemma fetched_urls_emit_fetch h p :
  fetched_urls (effects (emit (EvFetch (block_url h)) p)) =
  fetched_urls (effects p) ++ [block_url h].
Proof. cbn [effects emit]. now rewrite fetched_urls_app. Qed.

Lemma offered_payloads_app (l1 l2 : list effect) :
  offered_payloads (l1 ++ l2) = offered_payloads l1 ++ offered_payloads l2.
Proof.
  induction l1 as [|e l1 IH]; simpl; [reflexivity|].
  destruct e; simpl; now rewrite IH.
Qed.

Lemma offered_payloads_update_ui p :
  offered_payloads (effects (update_ui p)) = offered_payloads (effects p).
Proof.
  rewrite update_ui_effects, offered_payloads_app.
  destruct (tip_unchanged p); simpl; now rewrite app_nil_r.
Qed.

(** Ticks with the chain out of initial sync and no promise settled in
    between: each one starts a run of [update_tip] at the same height. *)
Lemma steady_ticks n : forall w,
  ibd (florestaChain (the_page w)) = false ->
  let t := {| started_by := ByTimer;
              at_pc := AwaitFetch (height (florestaChain (the_page w)) + 1) |} in
  let w' := play JSON_stringify (replicate n Tick) w in
  tasks w' = tasks w ++ replicate n t /\
  fetched_urls (effects (the_page w')) =
    fetched_urls (effects (the_page w)) ++
    replicate n (block_url (height (florestaChain (the_page w)) + 1)) /\
  offered_payloads (effects (the_page w')) =
    offered_payloads (effects (the_page w)) /\
  florestaChain (the_page w') = florestaChain (the_page w).
Proof.
  induction n as [|n IH]; intros w Hibd; cbn zeta.
  - cbn [replicate play]. now rewrite !app_nil_r.
  - cbn [replicate play handle]. unfold interval_callback.
    cbn [the_page with_page]. rewrite update_ui_chain, Hibd.
    set (w1 := spawn_update_tip ByTimer (with_page (update_ui (the_page w)) w)).
    assert (Hc1 : florestaChain (the_page w1) = florestaChain (the_page w))
      by (cbn; apply update_ui_chain).
    assert (Hibd1 : ibd (florestaChain (the_page w1)) = false)
      by now rewrite Hc1.
    destruct (IH w1 Hibd1) as (Htk & Hf & Ho & Hc). rewrite Hc1 in *.
    split; [|split; [|split]].
    + rewrite Htk. cbn [tasks w1 spawn_update_tip the_page with_page].
      rewrite update_ui_chain, <- app_assoc. reflexivity.
    + rewrite Hf. cbn [w1 spawn_update_tip the_page with_page].
      rewrite fetched_urls_emit_fetch, fetched_urls_update_ui, update_ui_chain.
      rewrite <- app_assoc. reflexivity.
    + rewrite Ho. cbn [w1 spawn_update_tip the_page with_page effects emit].
      rewrite offered_payloads_app, offered_payloads_update_ui. cbn.
      now rewrite app_nil_r.
    + exact Hc.
Qed.

(** X2: outside initial sync every tick starts [update_tip] anew at
    [height + 1], whether or not an earlier run is still waiting: [n]
    ticks with no promise settled in between leave [n] more runs waiting
    on the same height and have fetched the same URL [n] times. *)
Theorem steady_ticks_overlap n w :
  ibd (florestaChain (the_page w)) = false ->
  tasks (play JSON_stringify (replicate n Tick) w) =
    tasks w ++
    replicate n {| started_by := ByTimer;
                   at_pc := AwaitFetch (height (florestaChain (the_page w)) + 1) |} /\
  fetched_urls (effects (the_page (play JSON_stringify (replicate n Tick) w))) =
    fetched_urls (effects (the_page w)) ++
    replicate n (block_url (height (florestaChain (the_page w)) + 1)).
Proof.
  intros Hibd. destruct (steady_ticks n w Hibd) as (Htk & Hf & _).
  split; assumption.
Qed.

Lemma two_last_lookup_0 (ts : list task) (a b : task) :
  (ts ++ [a; b]) !! length ts = Some a.
Proof. now rewrite list_lookup_middle. Qed.

Lemma two_last_lookup_1 (ts : list task) (a b : task) :
  (ts ++ [a; b]) !! S (length ts) = Some b.
Proof.
  rewrite lookup_app_r by lia.
  now replace (S (length ts) - length ts) with 1 by lia.
Qed.

Lemma two_last_insert_0 (ts : list task) (a b a' : task) :
  <[length ts := a']> (ts ++ [a; b]) = ts ++ [a'; b].
Proof. rewrite insert_app_r_alt by lia. now rewrite Nat.sub_diag. Qed.

Lemma two_last_insert_1 (ts : list task) (a b b' : task) :
  <[S (length ts) := b']> (ts ++ [a; b]) = ts ++ [a; b'].
Proof.
  rewrite insert_app_r_alt by lia.
  now replace (S (length ts) - length ts) with 1 by lia.
Qed.

Lemma offered_payloads_apply_block h (d : json) p :
  offered_payloads (effects (fst (apply_block JSON_stringify h d p))) =
  offered_payloads (effects p) ++ [JSON_stringify d].
Proof.
  unfold apply_block; cbn [florestaChain emit].
  destruct (accept_block (JSON_stringify d) (florestaChain p)); cbn;
    rewrite !offered_payloads_app; cbn; now rewrite app_nil_r.
Qed.

(** The body promise of a run of the timer settles on a block. *)
Lemma resume_json_timer_offers tid (t : task) h (body : option json)
    (d : json) w :
  started_by t = ByTimer ->
  read_block body = BlockPresent d ->
  exists to,
    tasks (resume_json JSON_stringify tid t h body w) =
      <[tid := {| started_by := ByTimer; at_pc := to |}]> (tasks w) /\
    offered_payloads (effects (the_page (resume_json JSON_stringify tid t h body w))) =
      offered_payloads (effects (the_page w)) ++ [JSON_stringify d].
Proof.
  intros Hby Hblock. unfold resume_json. rewrite Hblock.
  pose proof (offered_payloads_apply_block h d (the_page w)) as Hoff.
  destruct (apply_block JSON_stringify h d (the_page w)) as [p2 [|e]];
    cbn [fst] in Hoff; unfold move_task; cbn [tasks the_page effects emit];
    rewrite Hby; eexists; (split; [reflexivity|]).
  - rewrite offered_payloads_app, Hoff. cbn. now rewrite app_nil_r.
  - exact Hoff.
Qed.

Lemma play_app evs1 : forall evs2 w,
  play JSON_stringify (evs1 ++ evs2) w =
  play JSON_stringify evs2 (play JSON_stringify evs1 w).
Proof.
  induction evs1 as [|ev evs1 IH]; intros evs2 w; cbn [play app]; auto.
Qed.

Lemma fetch_response_step tid (t : task) h (body : option json) w :
  tasks w !! tid = Some t ->
  at_pc t = AwaitFetch h ->
  handle JSON_stringify (FetchSettled tid (FetchResponse body)) w =
  {| the_page := the_page w;
     tasks := <[tid := {| started_by := started_by t;
                          at_pc := AwaitJson h body |}]> (tasks w) |}.
Proof. intros Hl Hpc. cbn [handle]. now rewrite Hl, Hpc. Qed.

Lemma json_step tid (t : task) h (body : option json) w :
  tasks w !! tid = Some t ->
  at_pc t = AwaitJson h body ->
  handle JSON_stringify (JsonSettled tid) w =
  resume_json JSON_stringify tid t h body w.
Proof. intros Hl Hpc. cbn [handle]. now rewrite Hl, Hpc. Qed.

(** X11: two ticks outside initial sync before the first fetch has come
    back, and then the same block served to both runs: the block is
    handed to [accept_block] twice. *)
Theorem overlapping_ticks_offer_block_twice w (body : option json) (d : json) :
  ibd (florestaChain (the_page w)) = false ->
  read_block body = BlockPresent d ->
  offered_payloads
    (effects (the_page
      (play JSON_stringify
         [Tick; Tick;
          FetchSettled (length (tasks w)) (FetchResponse body);
          FetchSettled (S (length (tasks w))) (FetchResponse body);
          JsonSettled (length (tasks w));
          JsonSettled (S (length (tasks w)))] w))) =
  offered_payloads (effects (the_page w)) ++
  [JSON_stringify d; JSON_stringify d].
Proof.
  intros Hibd Hblock.
  change [Tick; Tick;
          FetchSettled (length (tasks w)) (FetchResponse body);
          FetchSettled (S (length (tasks w))) (FetchResponse body);
          JsonSettled (length (tasks w));
          JsonSettled (S (length (tasks w)))]
    with (replicate 2 Tick ++
          [FetchSettled (length (tasks w)) (FetchResponse body);
           FetchSettled (S (length (tasks w))) (FetchResponse body);
           JsonSettled (length (tasks w));
           JsonSettled (S (length (tasks w)))]).
  rewrite play_app.
  destruct (steady_ticks 2 w Hibd) as (Htk & _ & Hoff & _).
  set (h := height (florestaChain (the_page w)) + 1) in *.
  set (ts := tasks w) in *.
  destruct (play JSON_stringify (replicate 2 Tick) w) as [p2 ts2].
  cbn [tasks the_page replicate] in Htk, Hoff. subst ts2.
  set (a := {| started_by := ByTimer; at_pc := AwaitFetch h |}).
  set (b := {| started_by := ByTimer; at_pc := AwaitJson h body |}).
  cbn [play].
  rewrite (fetch_response_step (length ts) a h body);
    [|apply two_last_lookup_0|reflexivity].
  cbn [tasks the_page started_by a]. rewrite two_last_insert_0. fold b.
  rewrite (fetch_response_step (S (length ts)) a h body);
    [|apply two_last_lookup_1|reflexivity].
  cbn [tasks the_page started_by a]. rewrite two_last_insert_1. fold b.
  set (w3 := {| the_page := p2; tasks := ts ++ [b; b] |}).
  rewrite (json_step (length ts) b h body w3);
    [|apply two_last_lookup_0|reflexivity].
  destruct (resume_json_timer_offers (length ts) b h body d w3 eq_refl Hblock)
    as (to & Htk4 & Hoff4).
  set (w4 := resume_json JSON_stringify (length ts) b h body w3) in *.
  cbn [tasks w3] in Htk4. rewrite two_last_insert_0 in Htk4.
  rewrite (json_step (S (length ts)) b h body w4);
    [|rewrite Htk4; apply two_last_lookup_1|reflexivity].
  destruct (resume_json_timer_offers (S (length ts)) b h body d w4
              eq_refl Hblock) as (to' & _ & Hoff5).
  rewrite Hoff5, Hoff4. cbn [the_page w3]. rewrite Hoff, <- app_assoc.
  reflexivity.
Qed.

(** ** The start button and the toggle over any events *)

Lemma toggles_and_syncs_step ev w :
  toggle_count (effects (the_page (handle JSON_stringify ev w))) +
    syncs_in_flight (tasks (handle JSON_stringify ev w)) <=
  toggle_count (effects (the_page w)) + syncs_in_flight (tasks w) +
    (if andb (is_start ev) (negb (start_disabled (the_page w)))
     then 1 else 0).
Proof.
  rewrite handle_toggle_count.
  pose proof (handle_syncs_in_flight JSON_stringify ev w) as Hfl.
  destruct (completes_sync_loop ev w);
    destruct (andb (is_start ev) (negb (start_disabled (the_page w)))); lia.
Qed.

Lemma toggles_and_syncs_play evs : forall w,
  toggle_count (effects (the_page (play JSON_stringify evs w))) +
    syncs_in_flight (tasks (play JSON_stringify evs w)) <=
  toggle_count (effects (the_page w)) + syncs_in_flight (tasks w) +
    count_starts evs.
Proof.
  induction evs as [|ev evs IH]; intros w; cbn [play count_starts]; [lia|].
  specialize (IH (handle JSON_stringify ev w)).
  pose proof (toggles_and_syncs_step ev w) as Hstep.
  destruct (is_start ev); cbn [andb] in Hstep;
    [destruct (negb (start_disabled (the_page w)))|]; lia.
Qed.

(** X3: every toggle is paid for by a start click: over any events the
    toggles done plus the runs of [sync_loop] still waiting grow by at
    most the number of start clicks, so a page that has gone through
    [run] never shows more toggles than clicks; ticks and the runs of
    [update_tip] they start add none. *)
Theorem toggles_bounded_by_start_clicks evs :
  (forall w,
     toggle_count (effects (the_page (play JSON_stringify evs w))) +
       syncs_in_flight (tasks (play JSON_stringify evs w)) <=
     toggle_count (effects (the_page w)) + syncs_in_flight (tasks w) +
       count_starts evs) /\
  toggle_count (effects (the_page (play JSON_stringify evs run))) <=
    count_starts evs.
Proof.
  split; [apply toggles_and_syncs_play|].
  pose proof (toggles_and_syncs_play evs run) as Hrun.
  pose proof (@one_shot_run Chain _) as [_ Hzero].
  specialize (Hzero eq_refl).
  change (tasks run) with (@nil task) in Hrun.
  cbn [syncs_in_flight] in Hrun. lia.
Qed.

(** X4: from the page [run] leaves, if the start button is only clicked
    while no [sync_loop] is waiting, the toggle is called at most once,
    whatever else happens. *)
Theorem guarded_starts_toggle_at_most_once evs :
  single_flight JSON_stringify evs run ->
  toggle_count (effects (the_page (play JSON_stringify evs run))) <= 1.
Proof.
  intros Hsf.
  now apply (single_flight_toggles_at_most_once JSON_stringify evs run Hsf),
    one_shot_run.
Qed.

(** X13: nothing enables the start button again: once it is disabled it
    stays disabled through any events, clicks on it start nothing, and
    the only toggles still to come are those of runs of [sync_loop]
    already waiting. *)
Theorem disabled_start_stays_disabled evs : forall w,
  start_disabled (the_page w) = true ->
  start_disabled (the_page (play JSON_stringify evs w)) = true /\
  toggle_count (effects (the_page (play JSON_stringify evs w))) +
    syncs_in_flight (tasks (play JSON_stringify evs w)) <=
  toggle_count (effects (the_page w)) + syncs_in_flight (tasks w).
Proof.
  induction evs as [|ev evs IH]; intros w Hd; cbn [play]; [split; [exact Hd|lia]|].
  assert (Hd' : start_disabled (the_page (handle JSON_stringify ev w)) = true).
  { rewrite handle_start_disabled. now destruct (completes_sync_loop ev w). }
  destruct (IH _ Hd') as [Hfin Hsum]. split; [exact Hfin|].
  pose proof (toggles_and_syncs_step ev w) as Hstep.
  rewrite Hd in Hstep. cbn [negb] in Hstep. rewrite andb_false_r in Hstep. lia.
Qed.

(** ** What the page shows *)

Lemma display_consistent_same p p' :
  last_tip p' = last_tip p ->
  height_html p' = height_html p ->
  display_consistent p -> display_consistent p'.
Proof. unfold display_consistent. now intros -> ->. Qed.

Lemma display_consistent_update_ui p :
  display_consistent p -> display_consistent (update_ui p).
Proof.
  unfold update_ui. destruct (tip_unchanged p); [auto|].
  intros _. unfold display_consistent; cbn. now eexists.
Qed.

Lemma display_consistent_finish_sync p :
  display_consistent p -> display_consistent (finish_sync p).
Proof.
  intros Hdc. unfold finish_sync.
  eapply display_consistent_same;
    [| | apply display_consistent_update_ui;
         eapply display_consistent_same; [| |exact Hdc]];
    reflexivity.
Qed.

Lemma display_consistent_apply_block h (d : json) p :
  display_consistent p ->
  display_consistent (fst (apply_block JSON_stringify h d p)).
Proof.
  destruct (page_untouched_apply_block h d p) as (Hl & Hh & _).
  now apply display_consistent_same.
Qed.

Lemma display_consistent_add_address p :
  display_consistent p -> display_consistent (fst (add_address_to_wallet p)).
Proof.
  apply display_consistent_same; unfold add_address_to_wallet;
    cbn [florestaChain emit];
    now destruct (add_address (wallet_value p) (florestaChain p)).
Qed.

Lemma display_consistent_add_random p :
  display_consistent p ->
  display_consistent (fst (add_random_address_to_wallet p)).
Proof.
  intros Hdc. unfold add_random_address_to_wallet.
  destruct (get_random_address (florestaChain p)) as [a c].
  apply display_consistent_add_address.
  eapply display_consistent_same; [| |exact Hdc]; reflexivity.
Qed.

Lemma display_consistent_step ev w :
  display_consistent (the_page w) ->
  display_consistent (the_page (handle JSON_stringify ev w)).
Proof.
  intros Hdc. destruct ev; cbn [handle].
  - destruct (start_disabled (the_page w)); [exact Hdc|].
    eapply display_consistent_same; [| |exact Hdc]; reflexivity.
  - now apply display_consistent_add_address.
  - now apply display_consistent_add_random.
  - eapply display_consistent_same; [| |exact Hdc]; reflexivity.
  - unfold interval_callback. cbn [the_page with_page].
    destruct (ibd _); cbn [the_page with_page spawn_update_tip].
    + now apply display_consistent_update_ui.
    + eapply display_consistent_same;
        [| |apply display_consistent_update_ui; exact Hdc]; reflexivity.
  - destruct (tasks w !! tid) as [t|]; [|exact Hdc].
    destruct (at_pc t); try exact Hdc.
    unfold resume_fetch. now destruct r.
  - destruct (tasks w !! tid) as [t|]; [|exact Hdc].
    destruct (at_pc t); try exact Hdc.
    unfold resume_json. destruct (read_block body) as [|d|e].
    + destruct (started_by t); cbn [the_page move_task]; [|exact Hdc].
      now apply display_consistent_finish_sync.
    + pose proof (display_consistent_apply_block h d (the_page w) Hdc) as Happ.
      destruct (apply_block JSON_stringify h d (the_page w)) as [p2 [|e]];
        cbn [fst] in Happ; cbn [the_page move_task]; [|exact Happ].
      eapply display_consistent_same; [| |exact Happ]; reflexivity.
    + exact Hdc.
Qed.

Lemma display_consistent_play evs : forall w,
  display_consistent (the_page w) ->
  display_consistent (the_page (play JSON_stringify evs w)).
Proof.
  induction evs as [|ev evs IH]; intros w Hdc; cbn [play]; [exact Hdc|].
  now apply IH, display_consistent_step.
Qed.

Lemma display_consistent_run : display_consistent (the_page (@run Chain _)).
Proof.
  unfold run. cbn [the_page].
  eapply display_consistent_same;
    [| |apply display_consistent_update_ui]; try reflexivity.
Qed.

(** X8: whatever events the page has gone through since [run], the tip
    in the [height] paragraph is the tip [last_tip] holds, and right
    after every tick it is the tip of the chain. *)
Theorem page_shows_rendered_tip evs :
  display_consistent (the_page (play JSON_stringify evs run)) /\
  exists s,
    height_html
      (the_page (handle JSON_stringify Tick (play JSON_stringify evs run)))
      = Some s /\
    shown_tip s =
      tip (florestaChain
             (the_page (handle JSON_stringify Tick
                          (play JSON_stringify evs run)))).
Proof.
  pose proof (display_consistent_play evs run display_consistent_run) as Hdc.
  split; [exact Hdc|].
  set (w := play JSON_stringify evs run) in *.
  apply display_consistent_update_ui in Hdc.
  unfold display_consistent in Hdc. rewrite update_ui_last_tip in Hdc.
  destruct Hdc as (s & Hs & Htip). exists s.
  cbn [handle]. unfold interval_callback. cbn [the_page with_page].
  destruct (ibd _); cbn [the_page with_page spawn_update_tip
                         height_html florestaChain emit];
    rewrite update_ui_chain; auto.
Qed.

(** X9: [update_ui] looks at the tip only.  When the tip on the page is
    current and the toggle does not change it, a [sync_loop] that finds
    no block leaves both paragraphs as they were and renders nothing,
    although it has toggled the chain: the page goes on showing the sync
    flag from before the toggle. *)
Theorem sync_without_new_blocks_keeps_display src fuel p :
  tip_unchanged p = true ->
  tip (toggle_ibd (florestaChain p)) = tip (florestaChain p) ->
  fetch_block (src (height (florestaChain p) + 1)) = BlockAbsent ->
  exists p',
    sync_loop JSON_stringify (S fuel) src p = Some (p', Normal) /\
    florestaChain p' = toggle_ibd (florestaChain p) /\
    height_html p' = height_html p /\
    our_txs_html p' = our_txs_html p /\
    render_count (effects p') = render_count (effects p).
Proof.
  intros Hsame Htip Habs.
  unfold sync_loop, update_tip. cbn [update_tip_from]. rewrite Habs.
  eexists. split; [reflexivity|].
  unfold finish_sync.
  set (p1 := set_chain _ _).
  assert (H1 : tip_unchanged p1 = true).
  { unfold tip_unchanged in *. cbn. now rewrite Htip. }
  unfold update_ui. rewrite H1. cbn.
  repeat split.
  unfold render_count. rewrite !count_where_app. cbn. lia.
Qed.

(** ** The wallet field, twice *)

(** X12: the field is not checked before it is sent: once an add has
    gone through and emptied the field, another click on the add button
    with nothing typed in between hands the empty string to
    [add_address]. *)
Theorem second_add_forwards_empty p :
  snd (add_address_to_wallet p) = Normal ->
  forwarded_addresses
    (effects (fst (add_address_to_wallet (fst (add_address_to_wallet p))))) =
  forwarded_addresses (effects p) ++ [wallet_value p; ""].
Proof.
  unfold add_address_to_wallet at 1 3. cbn [florestaChain emit].
  destruct (add_address (wallet_value p) (florestaChain p)) as [c|];
    cbn [snd fst]; [intros _|discriminate].
  unfold add_address_to_wallet.
  cbn [florestaChain wallet_value effects emit set_chain set_wallet_value].
  destruct (add_address "" c); cbn [fst effects emit set_chain set_wallet_value];
    rewrite !forwarded_addresses_app, <- app_assoc; reflexivity.
Qed.

End Coverage.

(** ** The same on the chain object [Toy] *)

Lemma steady_ticks_overlap_witness :
  ibd (florestaChain (the_page
         (play stringify [ClickStart; FetchSettled 0 (bridge 0 1); JsonSettled 0]
            run))) = false /\
  tasks (play stringify (replicate 2 Tick)
           (play stringify [ClickStart; FetchSettled 0 (bridge 0 1); JsonSettled 0]
              run)) =
  [{| started_by := BySyncLoop; at_pc := Finished |};
   {| started_by := ByTimer; at_pc := AwaitFetch 1 |};
   {| started_by := ByTimer; at_pc := AwaitFetch 1 |}].
Proof.
  assert (Hibd : ibd (florestaChain (the_page
                   (play stringify
                      [ClickStart; FetchSettled 0 (bridge 0 1); JsonSettled 0]
                      run))) = false) by reflexivity.
  split; [exact Hibd|].
  destruct (steady_ticks_overlap stringify 2 _ Hibd) as [Htk _].
  exact Htk.
Defined.

Lemma guarded_starts_toggle_at_most_once_witness :
  toggle_count
    (effects (the_page
       (play stringify
          [ClickStart; FetchSettled 0 (bridge 0 1); JsonSettled 0;
           ClickStart; Tick] run))) <= 1.
Proof.
  apply (@guarded_starts_toggle_at_most_once chain toy_chain stringify).
  repeat split; intros Hs; first [reflexivity | discriminate Hs].
Defined.

Lemma update_tip_fetches_in_order_witness :
  exists p' n,
    update_tip_from stringify 3 (bridge 2) 1 (the_page run) = Some (p', Normal) /\
    n < 3 /\
    fetched_urls (effects p') =
      fetched_urls (effects (the_page run)) ++ map block_url (seq 1 (S n)).
Proof.
  assert (Hrun : exists p',
            update_tip_from stringify 3 (bridge 2) 1 (the_page run) =
            Some (p', Normal)) by (eexists; reflexivity).
  destruct Hrun as [p' Hrun].
  destruct (update_tip_fetches_in_order stringify (bridge 2) 3 1 (the_page run)
              p' Normal Hrun) as (n & Hn & Hf & _).
  exists p', n. split; [exact Hrun|]. split; [exact Hn|exact Hf].
Defined.

Lemma update_tip_stops_at_next_height_witness :
  exists p',
    update_tip stringify 3 bridge_bad3 (the_page run) =
      Some (p', Throw ValidationError) /\
    height (florestaChain (the_page run)) <= height (florestaChain p').
Proof.
  assert (Hrun : exists p',
            update_tip stringify 3 bridge_bad3 (the_page run) =
            Some (p', Throw ValidationError)) by (eexists; reflexivity).
  destruct Hrun as [p' Hrun].
  destruct (update_tip_stops_at_next_height stringify bridge_bad3 3
              (the_page run) p' (Throw ValidationError)
              toy_height_steps Hrun) as [Hle _].
  exists p'. split; [exact Hrun|exact Hle].
Defined.

Lemma update_tip_leaves_page_alone_witness :
  exists p',
    update_tip_from stringify 3 (bridge 2) 1 (the_page run) = Some (p', Normal) /\
    page_untouched (the_page run) p'.
Proof.
  assert (Hrun : exists p',
            update_tip_from stringify 3 (bridge 2) 1 (the_page run) =
            Some (p', Normal)) by (eexists; reflexivity).
  destruct Hrun as [p' Hrun].
  exists p'. split; [exact Hrun|].
  exact (update_tip_leaves_page_alone stringify (bridge 2) 3 1 (the_page run)
           p' Normal Hrun).
Defined.

Lemma block_url_injective_witness :
  block_url 7 = block_url (3 + 4) /\ 7 = 3 + 4.
Proof.
  assert (Hurl : block_url 7 = block_url (3 + 4)) by reflexivity.
  split; [exact Hurl|]. exact (block_url_injective 7 (3 + 4) Hurl).
Defined.

Lemma overlapping_ticks_offer_block_twice_witness :
  offered_payloads
    (effects (the_page
      (play stringify
         [Tick; Tick;
          FetchSettled 1 (FetchResponse (Some (block_at 1)));
          FetchSettled 2 (FetchResponse (Some (block_at 1)));
          JsonSettled 1; JsonSettled 2]
         (play stringify [ClickStart; FetchSettled 0 (bridge 0 1); JsonSettled 0]
            run)))) =
  [stringify (JObj [("block", JStr "b1")]);
   stringify (JObj [("block", JStr "b1")])].
Proof.
  assert (Hibd : ibd (florestaChain (the_page
                   (play stringify
                      [ClickStart; FetchSettled 0 (bridge 0 1); JsonSettled 0]
                      run))) = false) by reflexivity.
  assert (Hblock : read_block (Some (block_at 1)) =
                   BlockPresent (JObj [("block", JStr "b1")])) by reflexivity.
  exact (overlapping_ticks_offer_block_twice stringify _ _ _ Hibd Hblock).
Defined.

Lemma disabled_start_stays_disabled_witness :
  start_disabled (the_page
    (play stringify [ClickStart; FetchSettled 0 (bridge 0 1); JsonSettled 0]
       run)) = true /\
  start_disabled (the_page
    (play stringify [ClickStart; Tick]
       (play stringify [ClickStart; FetchSettled 0 (bridge 0 1); JsonSettled 0]
          run))) = true.
Proof.
  assert (Hd : start_disabled (the_page
                 (play stringify
                    [ClickStart; FetchSettled 0 (bridge 0 1); JsonSettled 0]
                    run)) = true) by reflexivity.
  split; [exact Hd|].
  destruct (disabled_start_stays_disabled stringify [ClickStart; Tick] _ Hd)
    as [Hfin _].
  exact Hfin.
Defined.

Lemma sync_without_new_blocks_keeps_display_witness :
  exists p',
    sync_loop stringify 1 (bridge 0) (the_page run) = Some (p', Normal) /\
    ibd (florestaChain p') = false /\
    option_map shown_ibd (height_html p') = Some true.
Proof.
  assert (Hsame : tip_unchanged (the_page run) = true) by reflexivity.
  assert (Htip : tip (toggle_ibd (florestaChain (the_page run))) =
                 tip (florestaChain (the_page run))) by reflexivity.
  assert (Habs : fetch_block
                   (bridge 0 (height (florestaChain (the_page run)) + 1)) =
                 BlockAbsent) by reflexivity.
  destruct (sync_without_new_blocks_keeps_display stringify (bridge 0) 0
              (the_page run) Hsame Htip Habs)
    as (p' & Hsync & Hchain & Hhtml & _).
  exists p'. split; [exact Hsync|].
  rewrite Hchain, Hhtml. split; reflexivity.
Defined.

Lemma second_add_forwards_empty_witness :
  snd (add_address_to_wallet (set_wallet_value "abc" (the_page run))) = Normal /\
  forwarded_addresses
    (effects (fst (add_address_to_wallet
                     (fst (add_address_to_wallet
                             (set_wallet_value "abc" (the_page run))))))) =
  ["abc"; ""].
Proof.
  assert (Hok : snd (add_address_to_wallet
                       (set_wallet_value "abc" (the_page run))) = Normal)
    by reflexivity.
  split; [exact Hok|].
  exact (second_add_forwards_empty (set_wallet_value "abc" (the_page run)) Hok).
Defined.
